(** * The SEC-filing workflow of [extraction_review_tmp5_classify_sec]

    A shallow embedding of [process_file.py], [config.py] and [schemas.py]:
    the six workflow steps ([run_file], [download_file], [parse_document],
    [classify_document], [extract_data_based_on_type],
    [record_extracted_data]), the cached extraction agents and the pydantic
    schemas, written as state-passing code over an explicit world (local
    files, the agent-data collection, the progress stream, the history of
    collaborator calls), with Python exceptions as an error result.

    Logging ([logger.info], [logger.error], [print]) has no effect on the
    world modelled here and is left out. *)

From Stdlib Require Import String Ascii List NArith ZArith Lia Bool Floats.
From Stdlib.Strings Require Import Byte.
From stdpp Require Import gmap strings list fin_maps.

Local Open Scope string_scope.
Local Open Scope list_scope.

(** ** Python values *)

(** A Python [str] that the code encodes is kept as its sequence of code
    points (a Python [str] may hold lone surrogates, which UTF-8 refuses);
    the strs that are only compared, concatenated and passed on are
    [string]s. *)
Definition pystr := list N.

Definition bytes := list byte.

(** The exceptions ([Exception] subclasses) that the workflow raises itself
    or that reach it from Python's library and from the collaborators. *)
Inductive Exception : Type :=
| ValueError (msg : string)
| UnicodeEncodeError (position : nat)
| IndexError
| FileNotFoundError (path : string)
| FileExistsError
| ValidationError (model : string)
| ApiError (status_code : nat)
| CollaboratorError (msg : string).

Definition byte_of_N (n : N) : byte :=
  default Byte.x00 (Byte.of_N (n mod 256)).

(** [str.encode("utf-8")] on one code point, [None] on a surrogate. *)
Definition utf8_code_point (c : N) : option bytes :=
  if (c <? 0x80)%N then Some [byte_of_N c]
  else if (c <? 0x800)%N then
    Some [byte_of_N (N.lor 0xC0 (N.shiftr c 6));
          byte_of_N (N.lor 0x80 (N.land c 0x3F))]
  else if ((0xD800 <=? c) && (c <=? 0xDFFF))%N then None
  else if (c <? 0x10000)%N then
    Some [byte_of_N (N.lor 0xE0 (N.shiftr c 12));
          byte_of_N (N.lor 0x80 (N.land (N.shiftr c 6) 0x3F));
          byte_of_N (N.lor 0x80 (N.land c 0x3F))]
  else
    Some [byte_of_N (N.lor 0xF0 (N.shiftr c 18));
          byte_of_N (N.lor 0x80 (N.land (N.shiftr c 12) 0x3F));
          byte_of_N (N.lor 0x80 (N.land (N.shiftr c 6) 0x3F));
          byte_of_N (N.lor 0x80 (N.land c 0x3F))].

(** Strict UTF-8 encoding of a whole str: the position of the first
    surrogate is reported in the [UnicodeEncodeError]. *)
Fixpoint utf8_encode_from (pos : nat) (s : pystr) : Exception + bytes :=
  match s with
  | [] => inr []
  | c :: rest =>
      match utf8_code_point c with
      | None => inl (UnicodeEncodeError pos)
      | Some bs =>
          match utf8_encode_from (S pos) rest with
          | inl e => inl e
          | inr out => inr (bs ++ out)
          end
      end
  end.

Definition utf8_encode (s : pystr) : Exception + bytes := utf8_encode_from 0 s.

(** [str.startswith] and [str.endswith] for one-character separators, and
    [os.path.join] (posixpath) on two components. *)
Definition startswith_sep (s : string) : bool :=
  match s with
  | String c _ => Ascii.eqb c "/"%char
  | EmptyString => false
  end.

Fixpoint endswith_sep (s : string) : bool :=
  match s with
  | EmptyString => false
  | String c EmptyString => Ascii.eqb c "/"%char
  | String _ rest => endswith_sep rest
  end.

Definition path_join (a b : string) : string :=
  if startswith_sep b then b
  else if String.eqb a "" || endswith_sep a then a +:+ b
  else a +:+ "/" +:+ b.

(** Python truthiness of an optional str ([if event.data.file_hash:]). *)
Definition truthy_str (s : option string) : bool :=
  match s with
  | None => false
  | Some s => negb (String.eqb s "")
  end.

(** [x or 0.0] on an optional float: [None] and both zeros are falsy. *)
Definition or_zero (x : option float) : float :=
  match x with
  | None => 0%float
  | Some f => if PrimFloat.eqb f 0%float then 0%float else f
  end.

(** ** Schemas ([schemas.py]) *)

(** The raw value an extraction run returns ([ExtractRun.data]): a JSON
    value. An object is kept as its key/value list; a Python dict has each key
    once, and [dict_get] reads the first binding. *)
#[local] Unset Elimination Schemes.
Inductive json : Type :=
| JNull
| JBool (b : bool)
| JNumber (z : Z)
| JString (s : string)
| JArray (items : list json)
| JObject (fields : list (string * json)).
#[local] Set Elimination Schemes.

Fixpoint dict_get (key : string) (fields : list (string * json)) : option json :=
  match fields with
  | [] => None
  | (k, v) :: rest => if String.eqb k key then Some v else dict_get key rest
  end.

(** A field declared [Optional[str] = Field(None, ...)]: a missing key and
    [None] give [None], a str is kept, anything else fails validation. *)
Definition optional_str (model key : string) (fields : list (string * json))
  : Exception + option string :=
  match dict_get key fields with
  | None | Some JNull => inr None
  | Some (JString s) => inr (Some s)
  | Some _ => inl (ValidationError model)
  end.

Module Form10KData.
Record t : Type := Build {
  total_revenue : option string;
  net_income : option string;
  total_assets : option string;
  total_liabilities : option string
}.

Definition model_validate (obj : json) : Exception + t :=
  match obj with
  | JObject fields =>
      match optional_str "Form10KData" "total_revenue" fields,
            optional_str "Form10KData" "net_income" fields,
            optional_str "Form10KData" "total_assets" fields,
            optional_str "Form10KData" "total_liabilities" fields with
      | inr a, inr b, inr c, inr d => inr (Build a b c d)
      | _, _, _, _ => inl (ValidationError "Form10KData")
      end
  | _ => inl (ValidationError "Form10KData")
  end.
End Form10KData.

Module Form10QData.
Record t : Type := Build {
  quarterly_revenue : option string;
  quarterly_net_income : option string;
  total_assets : option string;
  total_liabilities : option string
}.

Definition model_validate (obj : json) : Exception + t :=
  match obj with
  | JObject fields =>
      match optional_str "Form10QData" "quarterly_revenue" fields,
            optional_str "Form10QData" "quarterly_net_income" fields,
            optional_str "Form10QData" "total_assets" fields,
            optional_str "Form10QData" "total_liabilities" fields with
      | inr a, inr b, inr c, inr d => inr (Build a b c d)
      | _, _, _, _ => inl (ValidationError "Form10QData")
      end
  | _ => inl (ValidationError "Form10QData")
  end.
End Form10QData.

Module Event8K.
Record t : Type := Build {
  category : option string;
  description : option string
}.

Definition model_validate (obj : json) : Exception + t :=
  match obj with
  | JObject fields =>
      match optional_str "Event8K" "category" fields,
            optional_str "Event8K" "description" fields with
      | inr a, inr b => inr (Build a b)
      | _, _ => inl (ValidationError "Event8K")
      end
  | _ => inl (ValidationError "Event8K")
  end.
End Event8K.

Module Form8KData.
Record t : Type := Build {
  events : option (list Event8K.t)
}.

Fixpoint validate_events (items : list json) : Exception + list Event8K.t :=
  match items with
  | [] => inr []
  | x :: rest =>
      match Event8K.model_validate x, validate_events rest with
      | inr e, inr es => inr (e :: es)
      | _, _ => inl (ValidationError "Form8KData")
      end
  end.

Definition model_validate (obj : json) : Exception + t :=
  match obj with
  | JObject fields =>
      match dict_get "events" fields with
      | None | Some JNull => inr (Build None)
      | Some (JArray items) =>
          match validate_events items with
          | inr es => inr (Build (Some es))
          | inl e => inl e
          end
      | Some _ => inl (ValidationError "Form8KData")
      end
  | _ => inl (ValidationError "Form8KData")
  end.
End Form8KData.

(** The final output schema: the classification and the extracted data. *)
Module MySchema.
Record t : Type := Build {
  document_type : option string;
  form_10k_data : option Form10KData.t;
  form_10q_data : option Form10QData.t;
  form_8k_data : option Form8KData.t
}.

Definition slot {A : Type} (o : option A) : nat :=
  match o with Some _ => 1 | None => 0 end.

(** How many of the three payload slots hold a value. *)
Definition populated (s : t) : nat :=
  slot (form_10k_data s) + slot (form_10q_data s) + slot (form_8k_data s).
End MySchema.

(** ** Values exchanged with the collaborators *)

(** The container the agent-data API stores. [ExtractedData[MySchema]] holds
    a validated schema, [ExtractedData[dict[str, Any]]] (the payload of
    [ExtractedInvalidEvent]) a raw dict. *)
Inductive Payload : Type :=
| Typed (schema : MySchema.t)
| Untyped (raw : json).

Module ExtractedData.
Record t : Type := create {
  data : Payload;
  file_id : string;
  file_name : string;
  file_hash : option string
}.
End ExtractedData.

Module ClassifierRule.
Record t : Type := Build { type : string; description : string }.
End ClassifierRule.

(** [classification_result.items[i].result]. *)
Module ClassificationResult.
Record t : Type := Build { type : string; confidence : option float }.
End ClassificationResult.

Module SourceText.
Record t : Type := Build { text_content : pystr; filename : string }.
End SourceText.

Inductive Schema : Type := Form10K | Form10Q | Form8K.

Module ExtractConfig.
Record t : Type := Build {
  system_prompt : option string;
  use_reasoning : bool;
  cite_sources : bool;
  confidence_scores : bool
}.
End ExtractConfig.

Module ExtractionAgent.
Record t : Type := Build {
  name : string;
  data_schema : Schema;
  config : ExtractConfig.t
}.
End ExtractionAgent.

(** A stored item of the agent-data collection. *)
Module Item.
Record t : Type := Build { id : string; data : ExtractedData.t }.
End Item.

Inductive Level : Type := info | warning | error.

Module UIToast.
Record t : Type := Build { level : Level; message : string }.
End UIToast.

(** ** Events of the workflow *)

Module FileEvent.
Record t : Type := Build { file_id : string }.
End FileEvent.

Module DownloadFileEvent.
Record t : Type := Build { file_id : string }.
End DownloadFileEvent.

Module FileDownloadedEvent.
Record t : Type := Build {
  file_id : string;
  file_path : string;
  filename : string
}.
End FileDownloadedEvent.

Module FileParsedEvent.
Record t : Type := Build {
  file_id : string;
  file_path : string;
  filename : string;
  markdown_content : pystr
}.
End FileParsedEvent.

Module FileClassifiedEvent.
Record t : Type := Build {
  file_id : string;
  file_path : string;
  filename : string;
  markdown_content : pystr;
  document_type : string;
  confidence : float
}.
End FileClassifiedEvent.

(** [ExtractedEvent | ExtractedInvalidEvent]: what the extraction step is
    declared to return and the recording step to accept. *)
Inductive ExtractedOrInvalid : Type :=
| ExtractedEvent (data : ExtractedData.t)
| ExtractedInvalidEvent (data : ExtractedData.t).

(** [event.data] on either of the two. *)
Definition event_data (event : ExtractedOrInvalid) : ExtractedData.t :=
  match event with
  | ExtractedEvent data => data
  | ExtractedInvalidEvent data => data
  end.

Module StopEvent.
Record t : Type := Build { result : string }.
End StopEvent.

(** ** The world and the collaborators *)

(** One call to an external collaborator, with its arguments. A call that
    reads a local file on the caller's behalf carries what it finds there. *)
Inductive Call : Type :=
| files_get_file (id : string)
| files_read_file_content (id : string)
| client_stream_GET (url : string)
| parser_aparse (file_path : string) (content : option bytes)
| parse_result_aget_markdown (job : string)
| classifier_aclassify_file_path (rules : list ClassifierRule.t)
    (file_input_path : string) (content : option bytes)
| extract_api_get_agent (name : string)
| extract_api_create_agent (name : string) (data_schema : Schema)
    (config : ExtractConfig.t)
| agent_aextract (agent : ExtractionAgent.t) (source : SourceText.t)
| data_untyped_search (file_hash_eq : string)
| data_delete_item (id : string)
| data_create_item (item : ExtractedData.t).

Record World : Type := mkWorld {
  fs : gmap string bytes;                   (* local files by path *)
  store : list Item.t;                      (* the agent-data collection *)
  stream : list UIToast.t;                  (* events written to the stream *)
  calls : list Call;                        (* collaborator calls, oldest first *)
  agents : gmap string ExtractionAgent.t;   (* lru_cache of config.py, by getter *)
  slept : list nat                          (* delays waited between attempts *)
}.

(** What lies outside the program. A collaborator answers a call given the
    whole history of calls, the call being answered last: any behaviour that
    is a function of what the collaborators have been asked so far. *)
Record Env : Type := mkEnv {
  gettempdir : string;
  LLAMA_DEPLOY_DEPLOYMENT_NAME : option string;
  sha256_hexdigest : bytes -> string;
  str_of_exception : Exception -> string;          (* f"{e}" *)
  format_percent : float -> string;                (* f"{x:.2%}" *)
  random_name : list Call -> nat -> string;        (* tempfile's candidates *)
  get_file_reply : list Call -> Exception + string;
  read_file_content_reply : list Call -> Exception + string;
  stream_reply : list Call -> Exception + (list bytes * option Exception);
  aparse_reply : list Call -> Exception + string;
  aget_markdown_reply : list Call -> Exception + pystr;
  aclassify_reply : list Call -> Exception + list ClassificationResult.t;
  get_agent_reply : list Call -> Exception + ExtractionAgent.t;
  create_agent_reply : list Call -> Exception + ExtractionAgent.t;
  aextract_reply : list Call -> Exception + json;
  data_fault : list Call -> option Exception;
  new_item_id : list Call -> list Item.t -> string;
  open_fault : string -> option Exception          (* paths [open] refuses *)
}.

(** ** Effects: world passing with exceptions *)

Inductive Outcome (A : Type) : Type :=
| Ok (value : A)
| Raise (e : Exception).
Arguments Ok {A} value.
Arguments Raise {A} e.

Definition M (A : Type) : Type := World -> Outcome A * World.

Definition ret {A : Type} (a : A) : M A := fun w => (Ok a, w).

Definition raise {A : Type} (e : Exception) : M A := fun w => (Raise e, w).

Definition bind {A B : Type} (m : M A) (k : A -> M B) : M B :=
  fun w =>
    match m w with
    | (Ok a, w') => k a w'
    | (Raise e, w') => (Raise e, w')
    end.

Notation "'let*' x ':=' m 'in' k" := (bind m (fun x => k))
  (at level 10, x name, m at level 100, k at level 200).
Notation "m ;; k" := (bind m (fun _ => k))
  (at level 100, k at level 200, right associativity).

(** [try: body except Exception as e: handler e]. *)
Definition try_except {A : Type} (body : M A) (handler : Exception -> M A) : M A :=
  fun w =>
    match body w with
    | (Ok a, w') => (Ok a, w')
    | (Raise e, w') => handler e w'
    end.

(** [try: body finally: cleanup]: the cleanup runs on both exits, and an
    exception of the cleanup replaces the outcome of the body. *)
Definition try_finally {A : Type} (body : M A) (cleanup : M unit) : M A :=
  fun w =>
    match body w with
    | (r, w') =>
        match cleanup w' with
        | (Ok _, w'') => (r, w'')
        | (Raise e, w'') => (Raise e, w'')
        end
    end.

Definition lift {A : Type} (r : Exception + A) : M A :=
  match r with
  | inl e => raise e
  | inr a => ret a
  end.

Definition set_fs (f : gmap string bytes) (w : World) : World :=
  mkWorld f (store w) (stream w) (calls w) (agents w) (slept w).
Definition set_store (s : list Item.t) (w : World) : World :=
  mkWorld (fs w) s (stream w) (calls w) (agents w) (slept w).
Definition set_stream (s : list UIToast.t) (w : World) : World :=
  mkWorld (fs w) (store w) s (calls w) (agents w) (slept w).
Definition set_calls (c : list Call) (w : World) : World :=
  mkWorld (fs w) (store w) (stream w) c (agents w) (slept w).
Definition set_agents (a : gmap string ExtractionAgent.t) (w : World) : World :=
  mkWorld (fs w) (store w) (stream w) (calls w) a (slept w).
Definition set_slept (s : list nat) (w : World) : World :=
  mkWorld (fs w) (store w) (stream w) (calls w) (agents w) s.

Definition get {A : Type} (f : World -> A) : M A := fun w => (Ok (f w), w).
Definition modify (f : World -> World) : M unit := fun w => (Ok tt, f w).

(** A call to a collaborator: it enters the history, and the collaborator
    answers with a value or raises. *)
Definition call {A : Type} (c : Call) (reply : list Call -> Exception + A) : M A :=
  fun w =>
    let history := calls w ++ [c] in
    match reply history with
    | inl e => (Raise e, set_calls history w)
    | inr a => (Ok a, set_calls history w)
    end.

(** *** Local files *)

(** [open(path, "wb")]: the file is created, or emptied when it exists. The
    call raises when the path cannot be opened for writing (a directory that
    is missing, a path that names a directory, a place that is not
    writable); directories and permissions are not part of [World], so the
    environment tells through [open_fault] which paths are refused, and a
    refused call changes nothing. *)
Definition open_wb (env : Env) (path : string) : M unit :=
  match open_fault env path with
  | Some e => raise e
  | None => modify (fun w => set_fs (<[path := []]> (fs w)) w)
  end.

(** The writes to a file that has just been opened for writing, up to its
    close: the file holds what was written. *)
Definition write_file (path : string) (content : bytes) : M unit :=
  modify (fun w => set_fs (<[path := content]> (fs w)) w).

(** [Path(path).read_bytes()]. *)
Definition read_bytes (path : string) : M bytes :=
  fun w =>
    match fs w !! path with
    | Some content => (Ok content, w)
    | None => (Raise (FileNotFoundError path), w)
    end.

(** [Path(path).unlink()]. *)
Definition unlink (path : string) : M unit :=
  fun w =>
    match fs w !! path with
    | Some _ => (Ok tt, set_fs (delete path (fs w)) w)
    | None => (Raise (FileNotFoundError path), w)
    end.

(** [tempfile.TMP_MAX], which is [os.TMP_MAX]: 238328 on Linux. *)
Definition TMP_MAX : nat := 62 * 62 * 62.
Arguments TMP_MAX : simpl never.

(** [tempfile._mkstemp_inner]: candidate names are tried in turn, a name
    already in use is skipped, and after [TMP_MAX] candidates the call gives
    up. The file is created empty. *)
Fixpoint mkstemp_inner (dir suffix : string) (names : nat -> string)
    (tries seq : nat) : M string :=
  match tries with
  | 0 => raise FileExistsError
  | S tries' =>
      fun w =>
        let file := path_join dir ("tmp" +:+ names seq +:+ suffix) in
        match fs w !! file with
        | Some _ => mkstemp_inner dir suffix names tries' (S seq) w
        | None => (Ok file, set_fs (<[file := []]> (fs w)) w)
        end
  end.

(** The workflow's [Context], as far as the steps use it. *)
Record Context : Type := mkContext {
  write_event_to_stream : UIToast.t -> M unit
}.

(** The context of a run: the event is appended to the run's stream. *)
Definition run_context : Context :=
  mkContext (fun toast => modify (fun w => set_stream (stream w ++ [toast]) w)).

(** A context whose stream nobody reads: every emission removed. *)
Definition silent_context : Context :=
  mkContext (fun _ => ret tt).

(** ** The extraction agents ([config.py]) *)

(** [agent_name or "extraction-review-tmp5-classify-sec"]. *)
Definition agent_name_or_default (env : Env) : string :=
  match LLAMA_DEPLOY_DEPLOYMENT_NAME env with
  | Some name => if String.eqb name "" then "extraction-review-tmp5-classify-sec" else name
  | None => "extraction-review-tmp5-classify-sec"
  end.

Definition extract_config (system_prompt : string) : ExtractConfig.t :=
  ExtractConfig.Build (Some system_prompt) false false true.

(** [functools.lru_cache(maxsize=None)] on a getter without arguments: the
    first value returned is kept; a call that raises caches nothing. *)
Definition lru_cache (getter : string) (body : M ExtractionAgent.t) : M ExtractionAgent.t :=
  let* cached := get (fun w => agents w !! getter) in
  match cached with
  | Some agent => ret agent
  | None =>
      let* agent := body in
      modify (fun w => set_agents (<[getter := agent]> (agents w)) w) ;;
      ret agent
  end.

(** The body shared by the three getters: look the agent up and set its
    schema and configuration; create it when the lookup answers 404. *)
Definition get_or_create_agent (env : Env) (name : string) (schema : Schema)
    (config : ExtractConfig.t) : M ExtractionAgent.t :=
  try_except
    (let* existing := call (extract_api_get_agent name) (get_agent_reply env) in
     ret (ExtractionAgent.Build (ExtractionAgent.name existing) schema config))
    (fun e =>
       match e with
       | ApiError status_code =>
           if Nat.eqb status_code 404 then
             call (extract_api_create_agent name schema config) (create_agent_reply env)
           else raise e
       | _ => raise e
       end).

Definition get_extract_agent_for_10k (env : Env) : M ExtractionAgent.t :=
  lru_cache "get_extract_agent_for_10k"
    (get_or_create_agent env (agent_name_or_default env +:+ "-10k") Form10K
       (extract_config "Extract financial data from this 10-K annual report.")).

Definition get_extract_agent_for_10q (env : Env) : M ExtractionAgent.t :=
  lru_cache "get_extract_agent_for_10q"
    (get_or_create_agent env (agent_name_or_default env +:+ "-10q") Form10Q
       (extract_config "Extract quarterly financial data from this 10-Q quarterly report.")).

Definition get_extract_agent_for_8k (env : Env) : M ExtractionAgent.t :=
  lru_cache "get_extract_agent_for_8k"
    (get_or_create_agent env (agent_name_or_default env +:+ "-8k") Form8K
       (extract_config "Extract all events from this 8-K current report, including the event category (Item number) and description.")).

(** ** The agent-data collection *)

Definition has_file_hash (h : string) (item : Item.t) : bool :=
  match ExtractedData.file_hash (Item.data item) with
  | Some h' => String.eqb h' h
  | None => false
  end.

(** Modelled from the spec: the keyed storage behind [get_data_client()]
    (section 6: [search(filter) -> list], [delete(id) -> void],
    [create(record) -> {id}]), whose code is not part of the repository. A
    call that raises leaves the collection as it was; a search answers with
    every stored item whose [file_hash] equals the filter's; a delete drops
    the items of that id; a create appends the record under the id the
    collection assigns. *)
Definition data_client {A : Type} (env : Env) (c : Call) (effect : World -> A * World) : M A :=
  fun w =>
    let history := calls w ++ [c] in
    match data_fault env history with
    | Some e => (Raise e, set_calls history w)
    | None => let '(a, w') := effect (set_calls history w) in (Ok a, w')
    end.

(** Modelled from the spec: [untyped_search(filter={"file_hash": {"eq": h}})]
    answers with the stored items whose [file_hash] is [h]. *)
Definition untyped_search (env : Env) (file_hash_eq : string) : M (list Item.t) :=
  data_client env (data_untyped_search file_hash_eq)
    (fun w => (List.filter (has_file_hash file_hash_eq) (store w), w)).

(** Modelled from the spec: [delete_item(id)] drops the items of that id. *)
Definition delete_item (env : Env) (id : string) : M unit :=
  data_client env (data_delete_item id)
    (fun w => (tt, set_store (List.filter (fun item => negb (String.eqb (Item.id item) id)) (store w)) w)).

(** Modelled from the spec: [create_item(data)] stores the record under a
    new identifier and answers with the stored item. *)
Definition create_item (env : Env) (data : ExtractedData.t) : M Item.t :=
  data_client env (data_create_item data)
    (fun w =>
       let item := Item.Build (new_item_id env (calls w) (store w)) data in
       (item, set_store (store w ++ [item]) w)).

(** [await asyncio.gather] over the tasks: every task runs to its end, also after
    one of them has raised, and the first exception is the one raised to the
    caller. The tasks are taken in the order of the list. *)
Fixpoint gather (tasks : list (M unit)) : M unit :=
  match tasks with
  | [] => ret tt
  | task :: rest =>
      fun w =>
        match task w with
        | (Ok _, w') => gather rest w'
        | (Raise e, w') => let '(_, w'') := gather rest w' in (Raise e, w'')
        end
  end.

(** ** The steps ([process_file.py]) *)

Definition toast (level : Level) (message : string) : UIToast.t :=
  UIToast.Build level message.

(** The handler every step ends with: an error toast, then [raise e]. *)
Definition report_and_raise {A : Type} (ctx : Context) (env : Env)
    (what : string) (e : Exception) : M A :=
  write_event_to_stream ctx (toast error (what +:+ ": " +:+ str_of_exception env e)) ;;
  raise e.

Definition run_file (event : FileEvent.t) : M DownloadFileEvent.t :=
  ret (DownloadFileEvent.Build (FileEvent.file_id event)).

(** The response is streamed into the file: once the request is answered
    the file is opened, and the chunks that arrived are written, also when
    the stream breaks off with an exception. When the file cannot be opened
    no chunk is read. *)
Definition download_file (ctx : Context) (env : Env) (event : DownloadFileEvent.t)
  : M FileDownloadedEvent.t :=
  let file_id := DownloadFileEvent.file_id event in
  try_except
    (let* file_metadata_name := call (files_get_file file_id) (get_file_reply env) in
     let* file_url := call (files_read_file_content file_id) (read_file_content_reply env) in
     let temp_dir := gettempdir env in
     let filename := file_metadata_name in
     let file_path := path_join temp_dir filename in
     write_event_to_stream ctx (toast info ("Downloading file " +:+ filename)) ;;
     let* response := call (client_stream_GET file_url) (stream_reply env) in
     open_wb env file_path ;;
     write_file file_path (concat (fst response)) ;;
     match snd response with
     | Some e => raise e
     | None => ret (FileDownloadedEvent.Build file_id file_path filename)
     end)
    (report_and_raise ctx env ("Error downloading file " +:+ file_id)).

Definition parse_document (ctx : Context) (env : Env) (event : FileDownloadedEvent.t)
  : M FileParsedEvent.t :=
  let filename := FileDownloadedEvent.filename event in
  let file_path := FileDownloadedEvent.file_path event in
  try_except
    (write_event_to_stream ctx (toast info ("Parsing document " +:+ filename)) ;;
     let* content := get (fun w => fs w !! file_path) in
     let* parse_result := call (parser_aparse file_path content) (aparse_reply env) in
     let* markdown_content :=
       call (parse_result_aget_markdown parse_result) (aget_markdown_reply env) in
     write_event_to_stream ctx (toast info ("Successfully parsed document " +:+ filename)) ;;
     ret (FileParsedEvent.Build (FileDownloadedEvent.file_id event) file_path
            filename markdown_content))
    (report_and_raise ctx env ("Error parsing document " +:+ filename)).

(** The classification rules, as the source lists them. *)
Definition rules : list ClassifierRule.t :=
  [ ClassifierRule.Build "10-q"
      "Annual report filed by publicly traded companies, containing comprehensive financial information including audited annual financial statements, total revenue, net income, total assets, and total liabilities for the fiscal year. Typically labeled as Form 10-K or 10-K Annual Report.";
    ClassifierRule.Build "10-k"
      "Quarterly report filed by publicly traded companies, containing unaudited financial statements for a specific quarter including quarterly revenue, quarterly net income, total assets, and total liabilities. Typically labeled as Form 10-Q or 10-Q Quarterly Report.";
    ClassifierRule.Build "8-k"
      "Current report filed by publicly traded companies to announce major events or material changes, such as acquisitions, executive changes, earnings announcements, or other significant corporate events. Contains event descriptions organized by Item numbers (e.g., Item 1.01, Item 2.02). Typically labeled as Form 8-K or 8-K Current Report." ].

(** [with tempfile.NamedTemporaryFile(mode="w", suffix=".md", delete=False,
    encoding="utf-8") as tmp: tmp.write(text)]: the file is created, the
    text is encoded and written, and the file is closed and kept. *)
Definition write_scratch_file (env : Env) (text : pystr) : M string :=
  let* history := get calls in
  let* temp_path := mkstemp_inner (gettempdir env) ".md" (random_name env history) TMP_MAX 0 in
  let* encoded := lift (utf8_encode text) in
  write_file temp_path encoded ;;
  ret temp_path.

Definition classify_document (ctx : Context) (env : Env) (event : FileParsedEvent.t)
  : M FileClassifiedEvent.t :=
  let filename := FileParsedEvent.filename event in
  try_except
    (write_event_to_stream ctx (toast info ("Classifying document " +:+ filename)) ;;
     let* temp_path := write_scratch_file env (FileParsedEvent.markdown_content event) in
     try_finally
       (let* content := get (fun w => fs w !! temp_path) in
        let* items :=
          call (classifier_aclassify_file_path rules temp_path content) (aclassify_reply env) in
        let* classification :=
          match items with
          | [] => raise IndexError
          | first :: _ => ret first
          end in
        let document_type := ClassificationResult.type classification in
        let confidence := or_zero (ClassificationResult.confidence classification) in
        write_event_to_stream ctx
          (toast info ("Document classified as " +:+ document_type +:+ " (confidence: "
                       +:+ format_percent env confidence +:+ ")")) ;;
        ret (FileClassifiedEvent.Build (FileParsedEvent.file_id event)
               (FileParsedEvent.file_path event) filename
               (FileParsedEvent.markdown_content event) document_type confidence))
       (unlink temp_path))
    (report_and_raise ctx env ("Error classifying document " +:+ filename)).

Definition extract_data_based_on_type (ctx : Context) (env : Env)
    (event : FileClassifiedEvent.t) : M ExtractedOrInvalid :=
  let filename := FileClassifiedEvent.filename event in
  let document_type := FileClassifiedEvent.document_type event in
  try_except
    (let* file_content := read_bytes (FileClassifiedEvent.file_path event) in
     let file_hash := sha256_hexdigest env file_content in
     let source_text :=
       SourceText.Build (FileClassifiedEvent.markdown_content event) filename in
     write_event_to_stream ctx
       (toast info ("Extracting data from " +:+ document_type +:+ " filing: " +:+ filename)) ;;
     let* final_data :=
       if String.eqb document_type "10-k" then
         let* agent := get_extract_agent_for_10k env in
         let* extracted_result := call (agent_aextract agent source_text) (aextract_reply env) in
         let* form_10k_data := lift (Form10KData.model_validate extracted_result) in
         ret (MySchema.Build (Some document_type) (Some form_10k_data) None None)
       else if String.eqb document_type "10-q" then
         let* agent := get_extract_agent_for_10q env in
         let* extracted_result := call (agent_aextract agent source_text) (aextract_reply env) in
         let* form_10q_data := lift (Form10QData.model_validate extracted_result) in
         ret (MySchema.Build (Some document_type) None (Some form_10q_data) None)
       else if String.eqb document_type "8-k" then
         let* agent := get_extract_agent_for_8k env in
         let* extracted_result := call (agent_aextract agent source_text) (aextract_reply env) in
         let* form_8k_data := lift (Form8KData.model_validate extracted_result) in
         ret (MySchema.Build (Some document_type) None None (Some form_8k_data))
       else raise (ValueError ("Unknown document type: " +:+ document_type)) in
     let extracted_data :=
       ExtractedData.create (Typed final_data) (FileClassifiedEvent.file_id event)
         filename (Some file_hash) in
     write_event_to_stream ctx
       (toast info ("Successfully extracted data from " +:+ document_type +:+ " filing")) ;;
     ret (ExtractedEvent extracted_data))
    (report_and_raise ctx env ("Error extracting data from file " +:+ filename)).

Definition record_extracted_data (ctx : Context) (env : Env)
    (event : ExtractedOrInvalid) : M StopEvent.t :=
  let data := event_data event in
  let file_name := ExtractedData.file_name data in
  try_except
    (write_event_to_stream ctx (toast info ("Recorded extracted data for file " +:+ file_name)) ;;
     (if truthy_str (ExtractedData.file_hash data) then
        let* existing_data := untyped_search env (default "" (ExtractedData.file_hash data)) in
        match existing_data with
        | [] => ret tt
        | _ :: _ => gather (map (fun item => delete_item env (Item.id item)) existing_data)
        end
      else ret tt) ;;
     let* item := create_item env data in
     ret (StopEvent.Build (Item.id item)))
    (report_and_raise ctx env ("Error recording extracted data for file " +:+ file_name)).

(** ** Retry policy and orchestration *)

Module ConstantDelayRetryPolicy.
Record t : Type := Build { maximum_attempts : nat; delay : nat }.
End ConstantDelayRetryPolicy.

Inductive Step : Type :=
| step_run_file
| step_download_file
| step_parse_document
| step_classify_document
| step_extract_data_based_on_type
| step_record_extracted_data.

(** The [retry_policy] argument of each [@step] decorator. *)
Definition retry_policy (s : Step) : ConstantDelayRetryPolicy.t :=
  match s with
  | step_run_file => ConstantDelayRetryPolicy.Build 3 10
  | step_download_file => ConstantDelayRetryPolicy.Build 3 10
  | step_parse_document => ConstantDelayRetryPolicy.Build 3 10
  | step_classify_document => ConstantDelayRetryPolicy.Build 3 10
  | step_extract_data_based_on_type => ConstantDelayRetryPolicy.Build 3 10
  | step_record_extracted_data => ConstantDelayRetryPolicy.Build 3 10
  end.

Definition sleep (seconds : nat) : M unit :=
  modify (fun w => set_slept (slept w ++ [seconds]) w).

(** Modelled from the spec: the retry wrapper of the [workflows] framework,
    whose code is not part of the repository (section 4.1: re-invoke the
    operation up to [N] times total on any raised failure, waiting [D]
    between attempts, propagating the last failure if all attempts are
    exhausted). [more] counts the attempts still allowed after this one. *)
Fixpoint attempt {A : Type} (delay more : nat) (operation : M A) : M A :=
  fun w =>
    match operation w with
    | (Ok a, w') => (Ok a, w')
    | (Raise e, w') =>
        match more with
        | 0 => (Raise e, w')
        | S more' => (sleep delay ;; attempt delay more' operation) w'
        end
    end.

(** Modelled from the spec: a step under its policy, the operation being
    invoked [maximum_attempts] times at most. *)
Definition with_retry {A : Type} (policy : ConstantDelayRetryPolicy.t)
    (operation : M A) : M A :=
  attempt (ConstantDelayRetryPolicy.delay policy)
    (ConstantDelayRetryPolicy.maximum_attempts policy - 1) operation.

(** Modelled from the spec: the orchestrator of the [workflows] framework
    (section 4.8: strictly linear transitions, each gated by the successful
    completion of the stage after its own retries; the event a step returns
    is handed to the step that accepts its type; the result of the run is the
    [StopEvent]'s, or the error of the stage that exhausted its retries). *)
Definition through_download (ctx : Context) (env : Env) (start : FileEvent.t)
  : M FileDownloadedEvent.t :=
  let* ev1 := with_retry (retry_policy step_run_file) (run_file start) in
  with_retry (retry_policy step_download_file) (download_file ctx env ev1).

(** Modelled from the spec: the run up to the classification step. *)
Definition through_classify (ctx : Context) (env : Env) (start : FileEvent.t)
  : M FileClassifiedEvent.t :=
  let* ev2 := through_download ctx env start in
  let* ev3 := with_retry (retry_policy step_parse_document) (parse_document ctx env ev2) in
  with_retry (retry_policy step_classify_document) (classify_document ctx env ev3).

(** Modelled from the spec: the run up to the extraction step. *)
Definition through_extract (ctx : Context) (env : Env) (start : FileEvent.t)
  : M ExtractedOrInvalid :=
  let* ev4 := through_classify ctx env start in
  with_retry (retry_policy step_extract_data_based_on_type)
    (extract_data_based_on_type ctx env ev4).

(** Modelled from the spec: [workflow.run(start_event=FileEvent(file_id))],
    whose result is the [result] of the [StopEvent]. *)
Definition workflow_run (ctx : Context) (env : Env) (start : FileEvent.t) : M string :=
  let* ev5 := through_extract ctx env start in
  let* stop := with_retry (retry_policy step_record_extracted_data)
                 (record_extracted_data ctx env ev5) in
  ret (StopEvent.result stop).

(** ** A sample environment

    Every collaborator answers at once and never raises, and every path can
    be opened for writing; the digest is a stand-in that keeps the bytes
    readable. The scenarios below change one collaborator at a time. *)
Module Sample.
Definition digit (n : nat) : string :=
  match n with
  | 0 => "0" | 1 => "1" | 2 => "2" | 3 => "3" | 4 => "4"
  | 5 => "5" | 6 => "6" | 7 => "7" | 8 => "8" | _ => "9"
  end.

Definition number (n : nat) : string := digit (n / 10) +:+ digit (n mod 10).

Definition digest (content : bytes) : string :=
  "sha256:" +:+ string_of_list_byte content.

Definition describe (e : Exception) : string :=
  match e with
  | ValueError msg => msg
  | UnicodeEncodeError _ => "surrogates not allowed"
  | IndexError => "list index out of range"
  | FileNotFoundError path => "No such file or directory: " +:+ path
  | FileExistsError => "No usable temporary file name found"
  | ValidationError model => "validation error for " +:+ model
  | ApiError _ => "api error"
  | CollaboratorError msg => msg
  end.

Definition agent : ExtractionAgent.t :=
  ExtractionAgent.Build "sec" Form10K (extract_config "").

Definition annual : json :=
  JObject [("total_revenue", JString "100M"); ("net_income", JString "10M");
           ("total_assets", JString "500M"); ("total_liabilities", JString "300M")].

(** The text the parser answers with, the label the classifier answers
    with and the storage faults are the parameters of the scenarios. *)
Definition env (markdown : pystr) (label : string) (confidence : option float)
    (fault : list Call -> option Exception) : Env :=
  mkEnv "/tmp" None digest describe (fun _ => "92.00%")
    (fun _ seq => digit seq)
    (fun _ => inr "report.pdf")
    (fun _ => inr "https://files.example/f")
    (fun _ => inr ([[x41; x42]; [x43]], None))
    (fun _ => inr "job-1")
    (fun _ => inr markdown)
    (fun _ => inr [ClassificationResult.Build label confidence])
    (fun _ => inr agent)
    (fun _ => inr agent)
    (fun _ => inr annual)
    fault
    (fun history _ => "item-" +:+ number (length history))
    (fun _ => None).

Definition text : pystr := [0x31; 0x30; 0x2D; 0x4B]%N.

Definition no_fault : list Call -> option Exception := fun _ => None.

Definition empty_world : World := mkWorld ∅ [] [] [] ∅ [].
End Sample.

(** * Reasoning about the effects *)

Section Inversion.
Context {A B : Type}.

Lemma bind_Ok (m : M A) (k : A -> M B) w b w' :
  bind m k w = (Ok b, w') ->
  exists a w1, m w = (Ok a, w1) /\ k a w1 = (Ok b, w').
Proof.
  unfold bind. destruct (m w) as [[a|e] w1]; intros H.
  - exists a, w1. by split.
  - discriminate.
Qed.

Lemma bind_Raise (m : M A) (k : A -> M B) w e w' :
  bind m k w = (Raise e, w') ->
  m w = (Raise e, w') \/ exists a w1, m w = (Ok a, w1) /\ k a w1 = (Raise e, w').
Proof.
  unfold bind. destruct (m w) as [[a|e1] w1]; intros H.
  - right. exists a, w1. by split.
  - left. by inversion H.
Qed.

Lemma bind_eval_Ok (m : M A) (k : A -> M B) w a w1 :
  m w = (Ok a, w1) -> bind m k w = k a w1.
Proof. unfold bind. by intros ->. Qed.

Lemma bind_eval_Raise (m : M A) (k : A -> M B) w e w1 :
  m w = (Raise e, w1) -> bind m k w = (Raise e, w1).
Proof. unfold bind. by intros ->. Qed.
End Inversion.

(** ** Triples *)

Definition hoare {A : Type} (P : World -> Prop) (m : M A)
    (Q : Outcome A -> World -> Prop) : Prop :=
  forall w r w', P w -> m w = (r, w') -> Q r w'.

(** [preserves I m]: the invariant survives [m], whatever its outcome. *)
Definition preserves {A : Type} (I : World -> Prop) (m : M A) : Prop :=
  hoare I m (fun _ w => I w).

Section Rules.
Context {A B : Type}.
Implicit Types (P I : World -> Prop).

Lemma hoare_bind P (R : A -> World -> Prop) (Q : Outcome B -> World -> Prop)
    (m : M A) (k : A -> M B) :
  hoare P m (fun r w => match r with Ok a => R a w | Raise e => Q (Raise e) w end) ->
  (forall a, hoare (R a) (k a) Q) ->
  hoare P (bind m k) Q.
Proof.
  intros Hm Hk w r w' HP. unfold bind.
  destruct (m w) as [[a|e] w1] eqn:E; intros H.
  - eapply Hk; [|exact H]. exact (Hm _ _ _ HP E).
  - inversion H; subst. exact (Hm _ _ _ HP E).
Qed.

Lemma preserves_bind I (m : M A) (k : A -> M B) :
  preserves I m -> (forall a, preserves I (k a)) -> preserves I (bind m k).
Proof.
  intros Hm Hk. apply hoare_bind with (R := fun _ w => I w); [|exact Hk].
  intros w r w' HI E. specialize (Hm _ _ _ HI E). by destruct r.
Qed.

Lemma preserves_ret I (a : A) : preserves I (ret a).
Proof. intros w r w' HI E. inversion E; by subst. Qed.

Lemma preserves_raise I (e : Exception) : preserves I (@raise A e).
Proof. intros w r w' HI E. inversion E; by subst. Qed.

Lemma preserves_lift I (x : Exception + A) : preserves I (lift x).
Proof. destruct x; [apply preserves_raise | apply preserves_ret]. Qed.

Lemma preserves_get I (f : World -> A) : preserves I (get f).
Proof. intros w r w' HI E. inversion E; by subst. Qed.

Lemma preserves_try_except I (body : M A) (handler : Exception -> M A) :
  preserves I body -> (forall e, preserves I (handler e)) ->
  preserves I (try_except body handler).
Proof.
  intros Hb Hh w r w' HI. unfold try_except.
  destruct (body w) as [[a|e] w1] eqn:E; intros H.
  - inversion H; subst. exact (Hb _ _ _ HI E).
  - eapply Hh; [|exact H]. exact (Hb _ _ _ HI E).
Qed.

Lemma preserves_try_finally I (body : M A) (cleanup : M unit) :
  preserves I body -> preserves I cleanup -> preserves I (try_finally body cleanup).
Proof.
  intros Hb Hc w r w' HI. unfold try_finally.
  destruct (body w) as [r1 w1] eqn:E.
  pose proof (Hb _ _ _ HI E) as H1.
  destruct (cleanup w1) as [[[]|e] w2] eqn:E2; intros H; inversion H; subst;
    exact (Hc _ _ _ H1 E2).
Qed.

Lemma preserves_call I (c : Call) (reply : list Call -> Exception + A) :
  (forall w h, I w -> I (set_calls h w)) -> preserves I (call c reply).
Proof.
  intros HI w r w' Hw. unfold call.
  destruct (reply _); intros E; inversion E; subst; by apply HI.
Qed.

Lemma preserves_attempt I delay more (operation : M A) :
  (forall w s, I w -> I (set_slept s w)) ->
  preserves I operation -> preserves I (attempt delay more operation).
Proof.
  intros Hs Hop. induction more as [|more IH]; intros w r w' HI; simpl;
    destruct (operation w) as [[a|e] w1] eqn:E; intros H.
  - inversion H; subst. exact (Hop _ _ _ HI E).
  - inversion H; subst. exact (Hop _ _ _ HI E).
  - inversion H; subst. exact (Hop _ _ _ HI E).
  - eapply IH; [|exact H]. apply Hs. exact (Hop _ _ _ HI E).
Qed.

Lemma preserves_with_retry I policy (operation : M A) :
  (forall w s, I w -> I (set_slept s w)) ->
  preserves I operation -> preserves I (with_retry policy operation).
Proof. intros. by apply preserves_attempt. Qed.
End Rules.

Lemma preserves_modify (I : World -> Prop) (f : World -> World) :
  (forall w, I w -> I (f w)) -> preserves I (modify f).
Proof. intros Hf w r w' HI E. inversion E; subst. by apply Hf. Qed.

(** ** Invariants of a run *)

(** The file at [path] holds [content]. *)
Definition fs_at (path : string) (content : bytes) (w : World) : Prop :=
  fs w !! path = Some content.

(** The collection holds exactly [items]. *)
Definition store_is (items : list Item.t) (w : World) : Prop :=
  store w = items.

(** An invariant that does not look at the stream, the history of calls,
    the cached agents or the delays waited. *)
Record Frame (I : World -> Prop) : Prop := mkFrame {
  frame_stream : forall w s, I w -> I (set_stream s w);
  frame_calls : forall w h, I w -> I (set_calls h w);
  frame_agents : forall w a, I w -> I (set_agents a w);
  frame_slept : forall w s, I w -> I (set_slept s w)
}.

Lemma Frame_fs_at path content : Frame (fs_at path content).
Proof. by split. Qed.

Lemma Frame_store_is items : Frame (store_is items).
Proof. by split. Qed.

Ltac frame_side :=
  intros;
  first
    [ by eapply frame_calls; eauto
    | by eapply frame_stream; eauto
    | by eapply frame_agents; eauto
    | by eapply frame_slept; eauto
    | by unfold fs_at, store_is in *; simpl in * ].

Ltac preserve_step :=
  first
    [ apply preserves_ret
    | apply preserves_raise
    | apply preserves_lift
    | apply preserves_get
    | apply preserves_call; [frame_side]
    | apply preserves_modify; [frame_side]
    | apply preserves_bind; [|intros ?]
    | apply preserves_try_except; [|intros ?]
    | apply preserves_try_finally
    | match goal with
      | |- preserves _ (match ?x with _ => _ end) => destruct x
      end ].

Ltac preserve := repeat preserve_step.

Section FramePreserved.
Variable I : World -> Prop.
Hypothesis HI : Frame I.
Variable env : Env.

Lemma preserves_emit (t : UIToast.t) :
  preserves I (write_event_to_stream run_context t).
Proof. apply preserves_modify. intros w. apply frame_stream, HI. Qed.

Lemma preserves_report {A : Type} what e :
  preserves I (@report_and_raise A run_context env what e).
Proof. unfold report_and_raise. apply preserves_bind; [apply preserves_emit|intros; apply preserves_raise]. Qed.

Lemma preserves_read_bytes path : preserves I (read_bytes path).
Proof.
  intros w r w' Hw. unfold read_bytes.
  destruct (fs w !! path); intros E; inversion E; by subst.
Qed.

Lemma preserves_agent getter name schema config :
  preserves I (lru_cache getter (get_or_create_agent env name schema config)).
Proof.
  unfold lru_cache, get_or_create_agent. preserve.
Qed.

Lemma preserves_parse_document event :
  preserves I (parse_document run_context env event).
Proof.
  unfold parse_document.
  apply preserves_try_except; [|intros; apply preserves_report].
  repeat first [apply preserves_emit | preserve_step].
Qed.

Lemma preserves_extract_data_based_on_type event :
  preserves I (extract_data_based_on_type run_context env event).
Proof.
  unfold extract_data_based_on_type.
  apply preserves_try_except; [|intros; apply preserves_report].
  apply preserves_bind; [apply preserves_read_bytes|intros file_content].
  apply preserves_bind; [apply preserves_emit|intros _].
  apply preserves_bind.
  - repeat match goal with
           | |- preserves _ (if ?c then _ else _) => destruct c
           end;
      try apply preserves_raise;
      (apply preserves_bind; [apply preserves_agent|intros agent]);
      repeat first [apply preserves_emit | preserve_step].
  - intros final_data.
    apply preserves_bind; [apply preserves_emit|intros; apply preserves_ret].
Qed.
End FramePreserved.

(** ** The scratch file of the classification step *)

Lemma mkstemp_inner_spec dir suffix names tries seq w r w' :
  mkstemp_inner dir suffix names tries seq w = (r, w') ->
  (r = Raise FileExistsError /\ w' = w) \/
  (exists file, r = Ok file /\ fs w !! file = None /\
                w' = set_fs (<[file := []]> (fs w)) w).
Proof.
  revert seq. induction tries as [|tries IH]; intros seq; simpl.
  - intros E. inversion E. by left.
  - destruct (fs w !! path_join dir ("tmp" +:+ names seq +:+ suffix)) eqn:L.
    + apply IH.
    + intros E. inversion E. right. eauto.
Qed.

Lemma write_scratch_file_spec env text w r w' :
  write_scratch_file env text w = (r, w') ->
  (r = Raise FileExistsError /\ w' = w) \/
  (exists file, fs w !! file = None /\
     match utf8_encode text with
     | inl e => r = Raise e /\ w' = set_fs (<[file := []]> (fs w)) w
     | inr encoded => r = Ok file /\ w' = set_fs (<[file := encoded]> (fs w)) w
     end).
Proof.
  unfold write_scratch_file, bind, get.
  destruct (mkstemp_inner _ _ _ _ _ w) as [[file|e] w1] eqn:E.
  - apply mkstemp_inner_spec in E as [[? _]|(file' & Hr & Hnone & ->)]; [discriminate|].
    inversion Hr; subst file'. intros H. right. exists file. split; [done|].
    destruct (utf8_encode text) as [e|encoded]; cbn in H; inversion H; subst.
    + done.
    + split; [done|]. unfold set_fs. cbn. by rewrite insert_insert_eq.
  - apply mkstemp_inner_spec in E as [[Hr ->]|(file' & Hr & _)]; [|discriminate].
    inversion Hr; subst. intros H. inversion H. by left.
Qed.

Section ClassifyExits.
Variable env : Env.
Variable event : FileParsedEvent.t.
Variable w : World.

Definition classify_started : UIToast.t :=
  toast info ("Classifying document " +:+ FileParsedEvent.filename event).

Definition classify_failed (e : Exception) : UIToast.t :=
  toast error ("Error classifying document " +:+ FileParsedEvent.filename event
               +:+ ": " +:+ str_of_exception env e).

Definition classify_history (temp_path : string) (encoded : bytes) : list Call :=
  calls w ++ [classifier_aclassify_file_path rules temp_path (Some encoded)].

Definition classified (first : ClassificationResult.t) : FileClassifiedEvent.t :=
  FileClassifiedEvent.Build (FileParsedEvent.file_id event)
    (FileParsedEvent.file_path event) (FileParsedEvent.filename event)
    (FileParsedEvent.markdown_content event) (ClassificationResult.type first)
    (or_zero (ClassificationResult.confidence first)).

Definition classify_done (first : ClassificationResult.t) : UIToast.t :=
  toast info ("Document classified as " +:+ ClassificationResult.type first
              +:+ " (confidence: "
              +:+ format_percent env (or_zero (ClassificationResult.confidence first))
              +:+ ")").

(** The exits of one attempt of [classify_document], each with the
    outcome and the world it leaves. *)
Inductive classify_exit : Outcome FileClassifiedEvent.t -> World -> Prop :=
| exit_no_name :
    classify_exit (Raise FileExistsError)
      (mkWorld (fs w) (store w)
         (stream w ++ [classify_started; classify_failed FileExistsError])
         (calls w) (agents w) (slept w))
| exit_not_encodable temp_path e :
    fs w !! temp_path = None ->
    utf8_encode (FileParsedEvent.markdown_content event) = inl e ->
    classify_exit (Raise e)
      (mkWorld (<[temp_path := []]> (fs w)) (store w)
         (stream w ++ [classify_started; classify_failed e])
         (calls w) (agents w) (slept w))
| exit_classifier_raised temp_path encoded e :
    fs w !! temp_path = None ->
    utf8_encode (FileParsedEvent.markdown_content event) = inr encoded ->
    aclassify_reply env (classify_history temp_path encoded) = inl e ->
    classify_exit (Raise e)
      (mkWorld (fs w) (store w)
         (stream w ++ [classify_started; classify_failed e])
         (classify_history temp_path encoded) (agents w) (slept w))
| exit_no_item temp_path encoded :
    fs w !! temp_path = None ->
    utf8_encode (FileParsedEvent.markdown_content event) = inr encoded ->
    aclassify_reply env (classify_history temp_path encoded) = inr [] ->
    classify_exit (Raise IndexError)
      (mkWorld (fs w) (store w)
         (stream w ++ [classify_started; classify_failed IndexError])
         (classify_history temp_path encoded) (agents w) (slept w))
| exit_classified temp_path encoded first rest :
    fs w !! temp_path = None ->
    utf8_encode (FileParsedEvent.markdown_content event) = inr encoded ->
    aclassify_reply env (classify_history temp_path encoded) = inr (first :: rest) ->
    classify_exit (Ok (classified first))
      (mkWorld (fs w) (store w)
         (stream w ++ [classify_started; classify_done first])
         (classify_history temp_path encoded) (agents w) (slept w)).

Lemma classify_document_exits r w' :
  classify_document run_context env event w = (r, w') -> classify_exit r w'.
Proof.
  unfold classify_document, try_except.
  remember (write_scratch_file env (FileParsedEvent.markdown_content event)) as scratch eqn:S.
  unfold bind at 1. cbn [write_event_to_stream run_context modify].
  unfold bind at 1.
  destruct (scratch _) as [[temp_path|e] w1] eqn:E; subst scratch;
    apply write_scratch_file_spec in E as [[Hr ->]|(file & Hnone & E)];
    try discriminate; cbn [fs set_stream set_fs] in *.
  - destruct (utf8_encode _) as [e|encoded] eqn:U; destruct E as [Hr ->];
      [discriminate|]. inversion Hr; subst file.
    unfold try_finally, bind, get, call, unlink. cbn.
    rewrite lookup_insert_eq.
    fold (classify_history temp_path encoded).
    destruct (aclassify_reply env _) as [e|[|first rest]] eqn:R; cbn;
      rewrite lookup_insert_eq; cbn; rewrite delete_insert_id by done;
      intros H; inversion H; subst; rewrite <- ?app_assoc; cbn.
    + by eapply exit_classifier_raised.
    + by eapply exit_no_item.
    + by eapply exit_classified.
  - inversion Hr; subst. cbn. intros H. inversion H; subst.
    rewrite <- app_assoc. apply exit_no_name.
  - destruct (utf8_encode _) as [e'|encoded] eqn:U; destruct E as [Hr ->];
      [|discriminate]. inversion Hr; subst. cbn. intros H. inversion H; subst.
    rewrite <- app_assoc. by eapply exit_not_encodable.
Qed.
End ClassifyExits.

(** ** Retries *)

Section Attempts.
Context {A : Type}.
Variable I : World -> Prop.
Variable operation : M A.
Hypothesis I_slept : forall w s, I w -> I (set_slept s w).
Hypothesis I_kept : preserves I operation.

(** A step that returns does so from one attempt of its operation, and
    that attempt started in a world where the invariant held. *)
Lemma attempt_Ok delay more w a w' :
  I w -> attempt delay more operation w = (Ok a, w') ->
  exists w0, I w0 /\ operation w0 = (Ok a, w').
Proof.
  revert w. induction more as [|more IH]; intros w HI; simpl;
    destruct (operation w) as [[a0|e] w1] eqn:E; intros H; try discriminate.
  - inversion H; subst. eauto.
  - inversion H; subst. eauto.
  - apply IH in H; [done|]. apply I_slept. exact (I_kept _ _ _ HI E).
Qed.

Lemma attempt_Raise delay more w e w' :
  I w -> attempt delay more operation w = (Raise e, w') ->
  exists w0, I w0 /\ operation w0 = (Raise e, w').
Proof.
  revert w. induction more as [|more IH]; intros w HI; simpl;
    destruct (operation w) as [[a0|e0] w1] eqn:E; intros H; try discriminate.
  - inversion H; subst. eauto.
  - apply IH in H; [done|]. apply I_slept. exact (I_kept _ _ _ HI E).
Qed.
End Attempts.

Lemma preserves_True {A : Type} (m : M A) : preserves (fun _ => True) m.
Proof. by intros w r w' _ _. Qed.

Lemma with_retry_Ok {A : Type} policy (operation : M A) w a w' :
  with_retry policy operation w = (Ok a, w') ->
  exists w0, operation w0 = (Ok a, w').
Proof.
  intros H. apply (attempt_Ok (fun _ => True)) in H as (w0 & _ & H);
    eauto using preserves_True.
Qed.

Lemma with_retry_Raise {A : Type} policy (operation : M A) w e w' :
  with_retry policy operation w = (Raise e, w') ->
  exists w0, operation w0 = (Raise e, w').
Proof.
  intros H. apply (attempt_Raise (fun _ => True)) in H as (w0 & _ & H);
    eauto using preserves_True.
Qed.

(** ** What each step hands on *)

Lemma report_and_raise_raises {A : Type} env what e w :
  @report_and_raise A run_context env what e w =
  (Raise e, set_stream (stream w ++ [toast error (what +:+ ": " +:+ str_of_exception env e)]) w).
Proof. reflexivity. Qed.

Lemma try_except_report_Ok {A : Type} (ctx : Context) env what (body : M A) w a w' :
  try_except body (report_and_raise ctx env what) w = (Ok a, w') ->
  body w = (Ok a, w').
Proof.
  unfold try_except. destruct (body w) as [[a0|e] w1]; [done|].
  unfold report_and_raise, bind, raise.
  by destruct (write_event_to_stream ctx _ w1) as [[[]|?] ?].
Qed.

Lemma classify_document_keeps_file env event path content :
  preserves (fs_at path content) (classify_document run_context env event).
Proof.
  intros w r w' H E. apply classify_document_exits in E.
  unfold fs_at in *. destruct E; cbn; try done.
  rewrite lookup_insert_ne; [done|]. congruence.
Qed.

Lemma classify_document_keeps_store env event items :
  preserves (store_is items) (classify_document run_context env event).
Proof.
  intros w r w' H E. apply classify_document_exits in E. by destruct E.
Qed.

Lemma classify_document_Ok env event w ev w' :
  classify_document run_context env event w = (Ok ev, w') ->
  FileClassifiedEvent.file_path ev = FileParsedEvent.file_path event /\
  FileClassifiedEvent.file_id ev = FileParsedEvent.file_id event.
Proof.
  intros E. apply classify_document_exits in E. by inversion E.
Qed.

Lemma download_file_keeps_store env event items :
  preserves (store_is items) (download_file run_context env event).
Proof.
  pose proof (Frame_store_is items) as HI.
  unfold download_file.
  apply preserves_try_except; [|intros; by apply preserves_report].
  unfold write_file, open_wb.
  repeat first [by apply preserves_emit | preserve_step].
Qed.

Lemma download_file_Ok env event w ev w' :
  download_file run_context env event w = (Ok ev, w') ->
  FileDownloadedEvent.file_id ev = DownloadFileEvent.file_id event /\
  exists content, fs w' !! FileDownloadedEvent.file_path ev = Some content.
Proof.
  unfold download_file. intros E. apply try_except_report_Ok in E.
  apply bind_Ok in E as (name & w1 & _ & E).
  apply bind_Ok in E as (url & w2 & _ & E).
  apply bind_Ok in E as ([] & w3 & _ & E).
  apply bind_Ok in E as ([chunks failure] & w4 & _ & E).
  apply bind_Ok in E as ([] & w5 & _ & E).
  apply bind_Ok in E as ([] & w6 & Hw & E).
  cbn in E. destruct failure; [discriminate|]. inversion E; subst. cbn.
  split; [done|]. inversion Hw; subst. cbn. rewrite lookup_insert_eq. eauto.
Qed.

Lemma parse_document_Ok env event w ev w' :
  parse_document run_context env event w = (Ok ev, w') ->
  FileParsedEvent.file_path ev = FileDownloadedEvent.file_path event /\
  FileParsedEvent.file_id ev = FileDownloadedEvent.file_id event.
Proof.
  unfold parse_document. intros E. apply try_except_report_Ok in E.
  apply bind_Ok in E as ([] & w1 & _ & E).
  apply bind_Ok in E as (content & w2 & _ & E).
  apply bind_Ok in E as (job & w3 & _ & E).
  apply bind_Ok in E as (markdown & w4 & _ & E).
  apply bind_Ok in E as ([] & w5 & _ & E).
  by inversion E.
Qed.

Lemma attempt_now {A : Type} delay more (operation : M A) w a w1 :
  operation w = (Ok a, w1) -> attempt delay more operation w = (Ok a, w1).
Proof. destruct more; simpl; by intros ->. Qed.

Lemma attempt_again {A : Type} delay more (operation : M A) w e w1 :
  operation w = (Raise e, w1) ->
  attempt delay (S more) operation w =
  attempt delay more operation (set_slept (slept w1 ++ [delay]) w1).
Proof. simpl. by intros ->. Qed.

Lemma attempt_last {A : Type} delay (operation : M A) w e w1 :
  operation w = (Raise e, w1) -> attempt delay 0 operation w = (Raise e, w1).
Proof. simpl. by intros ->. Qed.

(** ** The extraction step *)

(** The labels the extraction step has a branch for. *)
Definition recognized (document_type : string) : bool :=
  String.eqb document_type "10-k" || String.eqb document_type "10-q"
  || String.eqb document_type "8-k".

(** Exactly the slot of [document_type] is filled. *)
Definition one_slot (document_type : string) (s : MySchema.t) : Prop :=
  MySchema.document_type s = Some document_type /\
  ((document_type = "10-k" /\ is_Some (MySchema.form_10k_data s) /\
    MySchema.form_10q_data s = None /\ MySchema.form_8k_data s = None) \/
   (document_type = "10-q" /\ MySchema.form_10k_data s = None /\
    is_Some (MySchema.form_10q_data s) /\ MySchema.form_8k_data s = None) \/
   (document_type = "8-k" /\ MySchema.form_10k_data s = None /\
    MySchema.form_10q_data s = None /\ is_Some (MySchema.form_8k_data s))).

Lemma lift_Ok {A : Type} (x : Exception + A) w a w' :
  lift x w = (Ok a, w') -> x = inr a /\ w' = w.
Proof. destruct x; cbn; intros E; inversion E; by subst. Qed.

Lemma extract_data_based_on_type_Ok ctx env event w r w' :
  extract_data_based_on_type ctx env event w = (Ok r, w') ->
  exists content s,
    fs w !! FileClassifiedEvent.file_path event = Some content /\
    r = ExtractedEvent
          (ExtractedData.create (Typed s) (FileClassifiedEvent.file_id event)
             (FileClassifiedEvent.filename event)
             (Some (sha256_hexdigest env content))) /\
    one_slot (FileClassifiedEvent.document_type event) s.
Proof.
  unfold extract_data_based_on_type. intros E. apply try_except_report_Ok in E.
  apply bind_Ok in E as (content & w1 & Hread & E).
  apply bind_Ok in E as ([] & w2 & _ & E).
  apply bind_Ok in E as (s & w3 & Hs & E).
  apply bind_Ok in E as ([] & w4 & _ & E).
  inversion E; subst. exists content, s. split; [|split; [done|]].
  - unfold read_bytes in Hread.
    destruct (fs w !! _); inversion Hread; by subst.
  - unfold one_slot.
    destruct (String.eqb _ "10-k") eqn:K; [|destruct (String.eqb _ "10-q") eqn:Q;
      [|destruct (String.eqb _ "8-k") eqn:K8; [|discriminate]]];
      apply bind_Ok in Hs as (agent & w5 & _ & Hs);
      apply bind_Ok in Hs as (raw & w6 & _ & Hs);
      apply bind_Ok in Hs as (form & w7 & _ & Hs);
      inversion Hs; subst; cbn; (split; [done|]).
    + apply String.eqb_eq in K. left. eauto.
    + apply String.eqb_eq in Q. right; left. eauto.
    + apply String.eqb_eq in K8. right; right. eauto.
Qed.

Section UnknownType.
Variable env : Env.
Variable event : FileClassifiedEvent.t.

Definition unknown_type : Exception :=
  ValueError ("Unknown document type: " +:+ FileClassifiedEvent.document_type event).

Definition extract_started : UIToast.t :=
  toast info ("Extracting data from " +:+ FileClassifiedEvent.document_type event
              +:+ " filing: " +:+ FileClassifiedEvent.filename event).

Definition extract_failed (e : Exception) : UIToast.t :=
  toast error ("Error extracting data from file "
               +:+ FileClassifiedEvent.filename event
               +:+ ": " +:+ str_of_exception env e).

(** One attempt on an unrecognized label: two toasts and the error, and
    nothing else changes. *)
Lemma extract_unknown_attempt w content :
  fs w !! FileClassifiedEvent.file_path event = Some content ->
  recognized (FileClassifiedEvent.document_type event) = false ->
  extract_data_based_on_type run_context env event w =
  (Raise unknown_type,
   set_stream (stream w ++ [extract_started; extract_failed unknown_type]) w).
Proof.
  intros Hfile Hrec. unfold recognized in Hrec.
  apply orb_false_elim in Hrec as [Hrec K8].
  apply orb_false_elim in Hrec as [K Q].
  unfold extract_data_based_on_type, try_except, bind, read_bytes.
  rewrite Hfile. cbn. rewrite K, Q, K8. cbn.
  unfold set_stream. cbn. by rewrite <- app_assoc.
Qed.

(** The step on an unrecognized label: three attempts, two waits. *)
Lemma extract_unknown_step w content :
  fs w !! FileClassifiedEvent.file_path event = Some content ->
  recognized (FileClassifiedEvent.document_type event) = false ->
  with_retry (retry_policy step_extract_data_based_on_type)
    (extract_data_based_on_type run_context env event) w =
  (Raise unknown_type,
   mkWorld (fs w) (store w)
     (stream w ++ [extract_started; extract_failed unknown_type;
                   extract_started; extract_failed unknown_type;
                   extract_started; extract_failed unknown_type])
     (calls w) (agents w) (slept w ++ [10; 10])).
Proof.
  intros Hfile Hrec. unfold with_retry. cbn [retry_policy
    ConstantDelayRetryPolicy.delay ConstantDelayRetryPolicy.maximum_attempts Nat.sub].
  erewrite attempt_again by (by eapply extract_unknown_attempt).
  erewrite attempt_again by (by eapply extract_unknown_attempt).
  erewrite attempt_last by (by eapply extract_unknown_attempt).
  unfold set_stream, set_slept. cbn. by rewrite <- !app_assoc.
Qed.
End UnknownType.

(** ** The recording step *)

Definition delete_call (item : Item.t) : Call := data_delete_item (Item.id item).

Lemma data_client_eval {A : Type} env c (effect : World -> A * World) w :
  data_client env c effect w =
  match data_fault env (calls w ++ [c]) with
  | Some e => (Raise e, set_calls (calls w ++ [c]) w)
  | None => (Ok (fst (effect (set_calls (calls w ++ [c]) w))),
             snd (effect (set_calls (calls w ++ [c]) w)))
  end.
Proof.
  unfold data_client. destruct (data_fault _ _); [done|]. by destruct (effect _).
Qed.

(** The deletions fired together: each one is attempted, whatever the
    others do; when none raises, no item of a deleted id is left. *)
Lemma gather_delete_items env items w r w' :
  gather (map (fun item => delete_item env (Item.id item)) items) w = (r, w') ->
  fs w' = fs w /\ stream w' = stream w /\ agents w' = agents w /\
  slept w' = slept w /\
  calls w' = calls w ++ map delete_call items /\
  (forall it, In it (store w') -> In it (store w)) /\
  (r = Ok tt -> forall it, In it (store w') -> ~ In (Item.id it) (map Item.id items)).
Proof.
  revert w r w'. induction items as [|item items IH]; intros w r w'; simpl.
  - intros E. inversion E; subst. rewrite app_nil_r. repeat split; auto.
  - unfold delete_item at 1. rewrite data_client_eval. cbn.
    destruct (data_fault env _) as [e|] eqn:F.
    + destruct (gather _ _) as [r2 w2] eqn:G. intros E. inversion E; subst.
      apply IH in G as (? & ? & ? & ? & Hc & Hs & _). cbn in *.
      repeat split; try done.
      by rewrite Hc, <- app_assoc.
    + intros G. apply IH in G as (? & ? & ? & ? & Hc & Hs & Hok). cbn in *.
      repeat split; try done.
      * by rewrite Hc, <- app_assoc.
      * intros it Hin. apply Hs, filter_In in Hin. tauto.
      * intros -> it Hin [Hid|Hid].
        -- apply Hs, filter_In in Hin as [_ Hne]. rewrite Hid in Hne.
           by rewrite String.eqb_refl in Hne.
        -- by eapply Hok.
Qed.

(** Once the items found by the search are deleted, none with that hash
    is left. *)
Lemma none_left h (before after : list Item.t) :
  (forall it, In it after -> In it before) ->
  (forall it, In it after ->
     ~ In (Item.id it) (map Item.id (List.filter (has_file_hash h) before))) ->
  List.filter (has_file_hash h) after = [].
Proof.
  intros Hsub Hgone.
  destruct (List.filter (has_file_hash h) after) as [|it rest] eqn:F; [done|].
  assert (In it (List.filter (has_file_hash h) after)) as Hin by (rewrite F; by left).
  apply filter_In in Hin as [Hin Hhash].
  exfalso. apply (Hgone it Hin). apply in_map, filter_In. auto.
Qed.

Lemma truthy_str_Some h : truthy_str (Some h) = true <-> h <> "".
Proof.
  unfold truthy_str. destruct (String.eqb h "") eqn:E; simpl.
  - apply String.eqb_eq in E. by split.
  - apply String.eqb_neq in E. by split.
Qed.

Section Recording.
Variable env : Env.
Variable event : ExtractedOrInvalid.
Variable h : string.
Hypothesis has_hash : ExtractedData.file_hash (event_data event) = Some h.
Hypothesis not_empty : h <> "".

Definition found (w : World) : list Item.t :=
  List.filter (has_file_hash h) (store w).

(** The search, the deletions and the insertion of one attempt, in the
    order in which they are made. *)
Definition recording_calls (w : World) : list Call :=
  data_untyped_search h :: map delete_call (found w)
  ++ [data_create_item (event_data event)].

Lemma dedup_part w r w' :
  (if truthy_str (ExtractedData.file_hash (event_data event)) then
     let* existing_data :=
       untyped_search env (default "" (ExtractedData.file_hash (event_data event))) in
     match existing_data with
     | [] => ret tt
     | _ :: _ => gather (map (fun item => delete_item env (Item.id item)) existing_data)
     end
   else ret tt) w = (r, w') ->
  fs w' = fs w /\ stream w' = stream w /\ agents w' = agents w /\
  slept w' = slept w /\
  (forall it, In it (store w') -> In it (store w)) /\
  match r with
  | Ok _ =>
      calls w' = calls w ++ data_untyped_search h :: map delete_call (found w) /\
      List.filter (has_file_hash h) (store w') = []
  | Raise _ => True
  end.
Proof.
  rewrite has_hash. cbn [default]. rewrite (proj2 (truthy_str_Some h) not_empty).
  unfold bind, untyped_search. rewrite data_client_eval. cbn.
  destruct (data_fault env _) as [e|] eqn:F.
  - intros E. inversion E; subst. by repeat split.
  - fold (found w).
    destruct (found w) as [|it rest] eqn:Hfound.
    + intros E. inversion E; subst. cbn. repeat split; try done.
    + rewrite <- Hfound. intros G.
      apply gather_delete_items in G as (? & ? & ? & ? & Hc & Hs & Hok). cbn in *.
      repeat split; try done.
      destruct r as [[]|e]; [|done]. split.
      * by rewrite Hc, <- app_assoc.
      * eapply none_left; [exact Hs|]. by apply Hok.
Qed.

(** An attempt of the recording step that returns: the calls it made and
    the one record it leaves for the hash. *)
Lemma record_extracted_data_Ok w stop w' :
  record_extracted_data run_context env event w = (Ok stop, w') ->
  calls w' = calls w ++ recording_calls w /\
  List.filter (has_file_hash h) (store w') =
    [Item.Build (StopEvent.result stop) (event_data event)] /\
  fs w' = fs w.
Proof.
  unfold record_extracted_data. intros E. apply try_except_report_Ok in E.
  apply bind_Ok in E as ([] & w1 & Hw1 & E). inversion Hw1; subst w1. clear Hw1.
  apply bind_Ok in E as ([] & w2 & Hd & E).
  apply dedup_part in Hd as (Hfs & _ & _ & _ & _ & Hc & Hnone). cbn in *.
  apply bind_Ok in E as (item & w3 & Hcreate & E). inversion E; subst. clear E.
  unfold create_item in Hcreate. rewrite data_client_eval in Hcreate.
  destruct (data_fault env _); [discriminate|]. inversion Hcreate; subst. cbn.
  repeat split.
  - rewrite Hc. unfold recording_calls. by rewrite <- app_assoc.
  - rewrite List.filter_app, Hnone. cbn. unfold has_file_hash. cbn.
    by rewrite has_hash, String.eqb_refl.
  - done.
Qed.
End Recording.

Lemma record_extracted_data_keeps_file env event path content :
  preserves (fs_at path content) (record_extracted_data run_context env event).
Proof.
  pose proof (Frame_fs_at path content) as HI.
  assert (forall A c (effect : World -> A * World),
             (forall w, fs (snd (effect w)) = fs w) ->
             preserves (fs_at path content) (data_client env c effect)) as Hdata.
  { intros A c effect Hfs w r w' Hw. rewrite data_client_eval.
    destruct (data_fault env _); intros E; inversion E; subst; unfold fs_at in *.
    - done.
    - by rewrite Hfs. }
  assert (forall items,
             preserves (fs_at path content)
               (gather (map (fun item => delete_item env (Item.id item)) items))) as Hgather.
  { intros items w r w' Hw E. apply gather_delete_items in E as (Hfs & _).
    unfold fs_at in *. by rewrite Hfs. }
  unfold record_extracted_data.
  apply preserves_try_except; [|intros; by apply preserves_report].
  apply preserves_bind; [by apply preserves_emit|intros _].
  apply preserves_bind.
  - destruct (truthy_str _); [|apply preserves_ret].
    apply preserves_bind; [by apply Hdata|].
    intros [|it rest]; [apply preserves_ret|apply Hgather].
  - intros _. apply preserves_bind; [by apply Hdata|intros; apply preserves_ret].
Qed.

(** ** The run, stage after stage *)

Lemma bind_assoc {A B C : Type} (m : M A) (k1 : A -> M B) (k2 : B -> M C) w :
  bind (bind m k1) k2 w = bind m (fun a => bind (k1 a) k2) w.
Proof. unfold bind. by destruct (m w) as [[a|e] w1]. Qed.

(** What is left of the run once the file is downloaded, and once the
    document is classified. *)
Definition after_download (ctx : Context) (env : Env) (ev2 : FileDownloadedEvent.t)
  : M string :=
  let* ev3 := with_retry (retry_policy step_parse_document) (parse_document ctx env ev2) in
  let* ev4 := with_retry (retry_policy step_classify_document) (classify_document ctx env ev3) in
  let* ev5 := with_retry (retry_policy step_extract_data_based_on_type)
                (extract_data_based_on_type ctx env ev4) in
  let* stop := with_retry (retry_policy step_record_extracted_data)
                 (record_extracted_data ctx env ev5) in
  ret (StopEvent.result stop).

Definition after_classify (ctx : Context) (env : Env) (ev4 : FileClassifiedEvent.t)
  : M string :=
  let* ev5 := with_retry (retry_policy step_extract_data_based_on_type)
                (extract_data_based_on_type ctx env ev4) in
  let* stop := with_retry (retry_policy step_record_extracted_data)
                 (record_extracted_data ctx env ev5) in
  ret (StopEvent.result stop).

Lemma workflow_run_after_download ctx env start w :
  workflow_run ctx env start w =
  bind (through_download ctx env start) (after_download ctx env) w.
Proof.
  unfold workflow_run, through_extract, through_classify, after_download, bind.
  destruct (through_download ctx env start w) as [[ev2|e] w2]; [|done].
  destruct (with_retry _ (parse_document ctx env ev2) w2) as [[ev3|e] w3]; [|done].
  by destruct (with_retry _ (classify_document ctx env ev3) w3) as [[ev4|e] w4].
Qed.

Lemma workflow_run_after_classify ctx env start w :
  workflow_run ctx env start w =
  bind (through_classify ctx env start) (after_classify ctx env) w.
Proof.
  unfold workflow_run, through_extract, after_classify. by rewrite !bind_assoc.
Qed.

Lemma run_file_step start w :
  with_retry (retry_policy step_run_file) (run_file start) w =
  (Ok (DownloadFileEvent.Build (FileEvent.file_id start)), w).
Proof. by apply attempt_now. Qed.

(** The bytes this run downloads: what the file holds when the download
    step has returned. *)
Definition downloaded_bytes (env : Env) (start : FileEvent.t) (w : World)
  : option bytes :=
  match through_download run_context env start w with
  | (Ok ev2, w2) => fs w2 !! FileDownloadedEvent.file_path ev2
  | (Raise _, _) => None
  end.

Lemma through_download_Ok env start w ev2 w2 :
  through_download run_context env start w = (Ok ev2, w2) ->
  FileDownloadedEvent.file_id ev2 = FileEvent.file_id start /\
  store w2 = store w /\
  exists content,
    downloaded_bytes env start w = Some content /\
    fs_at (FileDownloadedEvent.file_path ev2) content w2.
Proof.
  intros H. unfold downloaded_bytes. rewrite H.
  unfold through_download in H. rewrite (bind_eval_Ok _ _ _ _ _ (run_file_step _ _)) in H.
  split; [|split].
  - apply with_retry_Ok in H as (w0 & H). by apply download_file_Ok in H as [-> _].
  - eapply (preserves_with_retry (store_is (store w))); [| |reflexivity|exact H].
    + apply Frame_store_is.
    + apply download_file_keeps_store.
  - apply with_retry_Ok in H as (w0 & H). apply download_file_Ok in H as [_ [content H]].
    by exists content.
Qed.

Section KeepsFile.
Variable env : Env.
Variables (path : string) (content : bytes).

Let I := fs_at path content.

Lemma parse_step_keeps_file ev2 :
  preserves I (with_retry (retry_policy step_parse_document)
                 (parse_document run_context env ev2)).
Proof.
  apply preserves_with_retry; [apply Frame_fs_at|].
  apply preserves_parse_document, Frame_fs_at.
Qed.

Lemma classify_step_keeps_file ev3 :
  preserves I (with_retry (retry_policy step_classify_document)
                 (classify_document run_context env ev3)).
Proof.
  apply preserves_with_retry; [apply Frame_fs_at|].
  apply classify_document_keeps_file.
Qed.

Lemma extract_step_keeps_file ev4 :
  preserves I (with_retry (retry_policy step_extract_data_based_on_type)
                 (extract_data_based_on_type run_context env ev4)).
Proof.
  apply preserves_with_retry; [apply Frame_fs_at|].
  apply preserves_extract_data_based_on_type, Frame_fs_at.
Qed.

Lemma record_step_keeps_file ev5 :
  preserves I (with_retry (retry_policy step_record_extracted_data)
                 (record_extracted_data run_context env ev5)).
Proof.
  apply preserves_with_retry; [apply Frame_fs_at|].
  apply record_extracted_data_keeps_file.
Qed.

Lemma after_download_keeps_file ev2 :
  preserves I (after_download run_context env ev2).
Proof.
  unfold after_download.
  apply preserves_bind; [apply parse_step_keeps_file|intros ev3].
  apply preserves_bind; [apply classify_step_keeps_file|intros ev4].
  apply preserves_bind; [apply extract_step_keeps_file|intros ev5].
  apply preserves_bind; [apply record_step_keeps_file|intros; apply preserves_ret].
Qed.
End KeepsFile.

(** A document that reaches the extraction step: its file is the one this
    run downloaded, still in place, and nothing has been stored yet. *)
Lemma through_classify_Ok env start w ev4 w4 :
  through_classify run_context env start w = (Ok ev4, w4) ->
  FileClassifiedEvent.file_id ev4 = FileEvent.file_id start /\
  store w4 = store w /\
  exists content,
    downloaded_bytes env start w = Some content /\
    fs_at (FileClassifiedEvent.file_path ev4) content w4.
Proof.
  unfold through_classify. intros H.
  apply bind_Ok in H as (ev2 & w2 & H2 & H).
  apply bind_Ok in H as (ev3 & w3 & H3 & H4).
  apply through_download_Ok in H2 as (Hid & Hstore & content & Hbytes & Hfile).
  pose proof (parse_step_keeps_file env _ _ ev2 _ _ _ Hfile H3) as Hfile3.
  pose proof (classify_step_keeps_file env _ _ ev3 _ _ _ Hfile3 H4) as Hfile4.
  assert (store w3 = store w) as Hstore3.
  { rewrite <- Hstore.
    eapply (preserves_with_retry (store_is (store w2))); [| |reflexivity|exact H3].
    - apply Frame_store_is.
    - apply preserves_parse_document, Frame_store_is. }
  assert (store w4 = store w) as Hstore4.
  { rewrite <- Hstore3.
    eapply (preserves_with_retry (store_is (store w3))); [| |reflexivity|exact H4].
    - apply Frame_store_is.
    - apply classify_document_keeps_store. }
  apply with_retry_Ok in H3 as (w0 & H3). apply parse_document_Ok in H3 as [Hp3 Hi3].
  apply with_retry_Ok in H4 as (w0' & H4). apply classify_document_Ok in H4 as [Hp4 Hi4].
  split; [congruence|]. split; [done|].
  exists content. split; [done|]. by rewrite Hp4, Hp3.
Qed.

(** ** Runs that differ in the progress stream only *)

(** The world without its stream. *)
Definition erase (w : World) : World := set_stream [] w.

Lemma erase_eq w1 w2 :
  erase w1 = erase w2 <->
  fs w1 = fs w2 /\ store w1 = store w2 /\ calls w1 = calls w2 /\
  agents w1 = agents w2 /\ slept w1 = slept w2.
Proof.
  destruct w1, w2. unfold erase, set_stream. cbn. split.
  - intros H. by inversion H.
  - intros (-> & -> & -> & -> & ->). done.
Qed.

(** [sim m1 m2]: from worlds that agree outside the stream, [m1] and [m2]
    end with the same outcome in worlds that agree outside the stream. *)
Definition sim {A : Type} (m1 m2 : M A) : Prop :=
  forall w1 w2, erase w1 = erase w2 ->
    fst (m1 w1) = fst (m2 w2) /\ erase (snd (m1 w1)) = erase (snd (m2 w2)).

Section Sim.
Context {A B : Type}.

Lemma sim_ret (a : A) : sim (ret a) (ret a).
Proof. by intros w1 w2 H. Qed.

Lemma sim_raise (e : Exception) : sim (@raise A e) (raise e).
Proof. by intros w1 w2 H. Qed.

Lemma sim_lift (x : Exception + A) : sim (lift x) (lift x).
Proof. destruct x; [apply sim_raise|apply sim_ret]. Qed.

Lemma sim_bind (m1 m2 : M A) (k1 k2 : A -> M B) :
  sim m1 m2 -> (forall a, sim (k1 a) (k2 a)) -> sim (bind m1 k1) (bind m2 k2).
Proof.
  intros Hm Hk w1 w2 H. unfold bind. destruct (Hm _ _ H) as [Hr Hw].
  destruct (m1 w1) as [[a1|e1] u1], (m2 w2) as [[a2|e2] u2]; cbn in *;
    try discriminate.
  - inversion Hr; subst. by apply Hk.
  - by inversion Hr.
Qed.

Lemma sim_try_except (b1 b2 : M A) (h1 h2 : Exception -> M A) :
  sim b1 b2 -> (forall e, sim (h1 e) (h2 e)) ->
  sim (try_except b1 h1) (try_except b2 h2).
Proof.
  intros Hb Hh w1 w2 H. unfold try_except. destruct (Hb _ _ H) as [Hr Hw].
  destruct (b1 w1) as [[a1|e1] u1], (b2 w2) as [[a2|e2] u2]; cbn in *;
    try discriminate.
  - by inversion Hr.
  - inversion Hr; subst. by apply Hh.
Qed.

Lemma sim_try_finally (b1 b2 : M A) (c1 c2 : M unit) :
  sim b1 b2 -> sim c1 c2 -> sim (try_finally b1 c1) (try_finally b2 c2).
Proof.
  intros Hb Hc w1 w2 H. unfold try_finally. destruct (Hb _ _ H) as [Hr Hw].
  destruct (b1 w1) as [r1 u1], (b2 w2) as [r2 u2]; cbn in *. subst r2.
  destruct (Hc _ _ Hw) as [Hr' Hw'].
  destruct (c1 u1) as [[[]|e1] v1], (c2 u2) as [[[]|e2] v2]; cbn in *;
    try discriminate; [done|]. by inversion Hr'.
Qed.

Lemma sim_get (f : World -> A) :
  (forall w1 w2, erase w1 = erase w2 -> f w1 = f w2) -> sim (get f) (get f).
Proof. intros Hf w1 w2 H. unfold get. cbn. by rewrite (Hf _ _ H). Qed.

Lemma sim_call (c : Call) (reply : list Call -> Exception + A) :
  sim (call c reply) (call c reply).
Proof.
  intros w1 w2 H. unfold call. apply erase_eq in H as (? & ? & Hc & ? & ?).
  rewrite Hc. destruct (reply _); cbn; (split; [done|]); apply erase_eq; by cbn.
Qed.

Lemma sim_data_client env (c : Call) (effect : World -> A * World) :
  (forall w1 w2, erase w1 = erase w2 ->
     fst (effect w1) = fst (effect w2) /\
     erase (snd (effect w1)) = erase (snd (effect w2))) ->
  sim (data_client env c effect) (data_client env c effect).
Proof.
  intros He w1 w2 H. rewrite !data_client_eval.
  pose proof H as H'. apply erase_eq in H' as (? & ? & Hc & ? & ?). rewrite Hc.
  assert (erase (set_calls (calls w2 ++ [c]) w1) = erase (set_calls (calls w2 ++ [c]) w2))
    as Hs by (apply erase_eq; by cbn).
  destruct (data_fault env _); cbn; [done|].
  destruct (He _ _ Hs) as [-> ->]. done.
Qed.

Lemma sim_attempt delay more (o1 o2 : M A) :
  sim o1 o2 -> sim (attempt delay more o1) (attempt delay more o2).
Proof.
  intros Ho. induction more as [|more IH]; intros w1 w2 H; simpl;
    destruct (Ho _ _ H) as [Hr Hw];
    destruct (o1 w1) as [[a1|e1] u1], (o2 w2) as [[a2|e2] u2]; cbn in *;
    try discriminate; try done.
  apply IH. apply erase_eq in Hw as (? & ? & ? & ? & Hs).
  apply erase_eq; cbn. by rewrite Hs.
Qed.

Lemma sim_with_retry policy (o1 o2 : M A) :
  sim o1 o2 -> sim (with_retry policy o1) (with_retry policy o2).
Proof. apply sim_attempt. Qed.
End Sim.

Lemma sim_modify (f : World -> World) :
  (forall w1 w2, erase w1 = erase w2 -> erase (f w1) = erase (f w2)) ->
  sim (modify f) (modify f).
Proof. intros Hf w1 w2 H. unfold modify. cbn. split; [done|]. by apply Hf. Qed.

(** A context whose emission always returns, and changes nothing but the
    stream. *)
Definition emits_quietly (ctx : Context) : Prop :=
  forall t w,
    fst (write_event_to_stream ctx t w) = Ok tt /\
    erase (snd (write_event_to_stream ctx t w)) = erase w.

(** Writing to the stream against not writing at all. *)
Lemma sim_emit ctx (t : UIToast.t) :
  emits_quietly ctx ->
  sim (write_event_to_stream ctx t) (write_event_to_stream silent_context t).
Proof.
  intros Hq w1 w2 H. destruct (Hq t w1) as [Hr Hw]. cbn. split; [done|].
  by rewrite Hw.
Qed.

Lemma sim_report {A : Type} ctx env what e :
  emits_quietly ctx ->
  sim (@report_and_raise A ctx env what e)
      (report_and_raise silent_context env what e).
Proof.
  intros Hq. unfold report_and_raise.
  apply sim_bind; [by apply sim_emit|intros; apply sim_raise].
Qed.

Lemma sim_open_wb env path : sim (open_wb env path) (open_wb env path).
Proof.
  unfold open_wb. destruct (open_fault env path); [apply sim_raise|].
  intros w1 w2 H. cbn. split; [done|].
  apply erase_eq in H as (Hfs & ? & ? & ? & ?). apply erase_eq. cbn. by rewrite Hfs.
Qed.

Lemma sim_read_bytes path : sim (read_bytes path) (read_bytes path).
Proof.
  intros w1 w2 H. unfold read_bytes. pose proof H as H'.
  apply erase_eq in H' as (-> & _). by destruct (fs w2 !! path).
Qed.

Lemma sim_unlink path : sim (unlink path) (unlink path).
Proof.
  intros w1 w2 H. unfold unlink. pose proof H as H'.
  apply erase_eq in H' as (Hfs & ? & ? & ? & ?). rewrite Hfs.
  destruct (fs w2 !! path); cbn; [|done]. split; [done|]. apply erase_eq. by cbn.
Qed.

Lemma sim_mkstemp_inner dir suffix names tries seq :
  sim (mkstemp_inner dir suffix names tries seq) (mkstemp_inner dir suffix names tries seq).
Proof.
  revert seq. induction tries as [|tries IH]; intros seq; [apply sim_raise|].
  intros w1 w2 H. simpl. pose proof H as H'.
  apply erase_eq in H' as (Hfs & ? & ? & ? & ?). rewrite Hfs.
  destruct (fs w2 !! _); [by apply IH|]. cbn. split; [done|]. apply erase_eq. by cbn.
Qed.

Ltac blind_erase := apply erase_eq; cbn; repeat split; congruence.

Ltac blind :=
  let H := fresh in
  intros ? ? H; apply erase_eq in H as (? & ? & ? & ? & ?);
  lazymatch goal with
  | |- erase _ = erase _ => blind_erase
  | |- _ /\ _ => cbn; split; [congruence|blind_erase]
  | |- _ => cbn; congruence
  end.

Ltac sim_step :=
  first
    [ apply sim_ret
    | apply sim_raise
    | apply sim_lift
    | apply sim_emit; assumption
    | apply sim_report; assumption
    | apply sim_call
    | apply sim_read_bytes
    | apply sim_unlink
    | apply sim_open_wb
    | apply sim_mkstemp_inner
    | apply sim_get; [blind]
    | apply sim_modify; [blind]
    | apply sim_bind; [|intros ?]
    | apply sim_try_except; [|intros ?]
    | apply sim_try_finally
    | match goal with
      | |- sim (match ?x with _ => _ end) _ => destruct x
      end ].

Section SimSteps.
Variable ctx : Context.
Hypothesis quiet : emits_quietly ctx.
Variable env : Env.

Lemma sim_download_file event :
  sim (download_file ctx env event) (download_file silent_context env event).
Proof. unfold download_file, write_file. repeat sim_step. Qed.

Lemma sim_parse_document event :
  sim (parse_document ctx env event) (parse_document silent_context env event).
Proof. unfold parse_document. repeat sim_step. Qed.

Lemma sim_write_scratch_file text :
  sim (write_scratch_file env text) (write_scratch_file env text).
Proof.
  unfold write_scratch_file, write_file.
  apply sim_bind; [apply sim_get; blind|intros history].
  apply sim_bind; [apply sim_mkstemp_inner|intros temp_path].
  repeat sim_step.
Qed.

Lemma sim_classify_document event :
  sim (classify_document ctx env event)
      (classify_document silent_context env event).
Proof.
  unfold classify_document.
  apply sim_try_except; [|intros; by apply sim_report].
  apply sim_bind; [by apply sim_emit|intros _].
  apply sim_bind; [apply sim_write_scratch_file|intros temp_path].
  repeat sim_step.
Qed.

Lemma sim_agent getter name schema config :
  sim (lru_cache getter (get_or_create_agent env name schema config))
      (lru_cache getter (get_or_create_agent env name schema config)).
Proof. unfold lru_cache, get_or_create_agent. repeat sim_step. Qed.

Lemma sim_extract_data_based_on_type event :
  sim (extract_data_based_on_type ctx env event)
      (extract_data_based_on_type silent_context env event).
Proof.
  unfold extract_data_based_on_type.
  apply sim_try_except; [|intros; by apply sim_report].
  apply sim_bind; [apply sim_read_bytes|intros file_content].
  apply sim_bind; [by apply sim_emit|intros _].
  apply sim_bind; [|intros; repeat sim_step].
  repeat match goal with
         | |- sim (if ?c then _ else _) _ => destruct c
         end;
    try apply sim_raise;
    (apply sim_bind; [apply sim_agent|intros agent]); repeat sim_step.
Qed.

Lemma sim_gather (tasks : list (M unit)) :
  Forall (fun task => sim task task) tasks -> sim (gather tasks) (gather tasks).
Proof.
  induction 1 as [|task tasks Ht _ IH]; [apply sim_ret|].
  intros w1 w2 H. simpl. destruct (Ht _ _ H) as [Hr Hw].
  destruct (task w1) as [[[]|e1] u1], (task w2) as [[[]|e2] u2]; cbn in *;
    try discriminate.
  - by apply IH.
  - destruct (IH _ _ Hw) as [_ Hw'].
    destruct (gather tasks u1), (gather tasks u2). cbn in *. by inversion Hr.
Qed.

Lemma sim_delete_item id : sim (delete_item env id) (delete_item env id).
Proof. apply sim_data_client. blind. Qed.

Lemma sim_record_extracted_data event :
  sim (record_extracted_data ctx env event)
      (record_extracted_data silent_context env event).
Proof.
  unfold record_extracted_data.
  apply sim_try_except; [|intros; by apply sim_report].
  apply sim_bind; [by apply sim_emit|intros _].
  apply sim_bind.
  - destruct (truthy_str _); [|apply sim_ret].
    apply sim_bind; [apply sim_data_client; blind|].
    intros [|it rest]; [apply sim_ret|].
    apply sim_gather, Forall_forall. intros task Hin.
    apply list_elem_of_In, in_map_iff in Hin as (item & <- & _).
    apply sim_delete_item.
  - intros _. apply sim_bind; [|intros; apply sim_ret].
    apply sim_data_client. blind.
Qed.

Lemma sim_workflow_run start :
  sim (workflow_run ctx env start) (workflow_run silent_context env start).
Proof.
  unfold workflow_run, through_extract, through_classify, through_download.
  repeat first
    [ apply sim_bind; [|intros ?]
    | apply sim_with_retry
    | apply sim_ret
    | apply sim_download_file
    | apply sim_parse_document
    | apply sim_classify_document
    | apply sim_extract_data_based_on_type
    | apply sim_record_extracted_data ].
Qed.
End SimSteps.

(** * Properties of the workflow *)

(** ** Deduplication by content fingerprint *)

Definition first_run : Outcome string * World :=
  workflow_run run_context (Sample.env Sample.text "10-k" None Sample.no_fault)
    (FileEvent.Build "f1") Sample.empty_world.

Definition second_run : Outcome string * World :=
  workflow_run run_context (Sample.env Sample.text "10-k" None Sample.no_fault)
    (FileEvent.Build "f2") (snd first_run).

(** C1. In a run that completes, with digests that are never empty: the
    record handed to the recording step carries the digest [h] of the bytes
    this run downloaded; the attempt of the recording step that returned
    asked the collection for the items of hash [h], deleted each item found
    and only then inserted the record (its calls, in this order); and when
    the run ends the collection holds exactly one item of hash [h], the one
    just inserted, under the identifier the run returns. The run starts in
    any world, so also in the one left by an earlier run on the same bytes
    under another file identifier. *)
Theorem completed_run_leaves_one_record env start w id w' :
  (forall content, sha256_hexdigest env content <> "") ->
  workflow_run run_context env start w = (Ok id, w') ->
  exists content data w0,
    downloaded_bytes env start w = Some content /\
    ExtractedData.file_id data = FileEvent.file_id start /\
    ExtractedData.file_hash data = Some (sha256_hexdigest env content) /\
    record_extracted_data run_context env (ExtractedEvent data) w0
      = (Ok (StopEvent.Build id), w') /\
    calls w' = calls w0
               ++ recording_calls (ExtractedEvent data) (sha256_hexdigest env content) w0 /\
    List.filter (has_file_hash (sha256_hexdigest env content)) (store w')
      = [Item.Build id data].
Proof.
  intros Hdigest H. rewrite workflow_run_after_classify in H.
  apply bind_Ok in H as (ev4 & w4 & H4 & H).
  apply through_classify_Ok in H4 as (Hid & _ & content & Hbytes & Hfile).
  unfold after_classify in H.
  apply bind_Ok in H as (ev5 & w5 & H5 & H).
  apply bind_Ok in H as ([id'] & w6 & H6 & H). inversion H; subst w6 id'. clear H.
  apply (attempt_Ok (fs_at (FileClassifiedEvent.file_path ev4) content)) in H5
    as (u & Hu & H5);
    [|apply Frame_fs_at|apply preserves_extract_data_based_on_type, Frame_fs_at|done].
  apply extract_data_based_on_type_Ok in H5 as (content' & s & Hread & -> & _).
  unfold fs_at in Hu. rewrite Hu in Hread. inversion Hread; subst content'.
  apply with_retry_Ok in H6 as (w0 & H6).
  exists content. eexists. exists w0.
  split; [done|]. split; [|split; [|split; [exact H6|]]]; [exact Hid|reflexivity|].
  eapply record_extracted_data_Ok in H6 as (Hcalls & Hone & _); [|reflexivity|apply Hdigest].
  split; [exact Hcalls|exact Hone].
Qed.

(** The second of two runs on the same bytes, under another file identifier:
    one record before it, one record after it. *)
Lemma completed_run_leaves_one_record_twice :
  List.filter (has_file_hash "sha256:ABC") (store (snd first_run)) =
    [Item.Build "item-10"
       (ExtractedData.create
          (Typed (MySchema.Build (Some "10-k")
                    (Some (Form10KData.Build (Some "100M") (Some "10M")
                             (Some "500M") (Some "300M"))) None None))
          "f1" "report.pdf" (Some "sha256:ABC"))] /\
  exists content data w0,
    downloaded_bytes (Sample.env Sample.text "10-k" None Sample.no_fault)
      (FileEvent.Build "f2") (snd first_run) = Some content /\
    ExtractedData.file_id data = "f2" /\
    ExtractedData.file_hash data = Some (Sample.digest content) /\
    record_extracted_data run_context
      (Sample.env Sample.text "10-k" None Sample.no_fault) (ExtractedEvent data) w0
      = (Ok (StopEvent.Build "item-20"), snd second_run) /\
    calls (snd second_run) = calls w0
      ++ recording_calls (ExtractedEvent data) (Sample.digest content) w0 /\
    List.filter (has_file_hash (Sample.digest content)) (store (snd second_run))
      = [Item.Build "item-20" data].
Proof.
  split; [by vm_compute|].
  apply (completed_run_leaves_one_record
           (Sample.env Sample.text "10-k" None Sample.no_fault)
           (FileEvent.Build "f2") (snd first_run) "item-20" (snd second_run)).
  - intros content. discriminate.
  - by vm_compute.
Defined.

(** ** An unrecognized label *)

(** C2. When the classification step has handed on a document whose label
    is none of "10-k", "10-q", "8-k", the run fails with the "Unknown
    document type" error. The world it leaves is the one the
    classification step left, but for the toasts of three attempts of the
    extraction step and the two waits of ten between them: no collaborator
    was called after the classifier (no extraction agent looked up, no
    extraction run), and the collection is the one the run started with. *)
Theorem unknown_document_type_fails env start w ev4 w4 :
  through_classify run_context env start w = (Ok ev4, w4) ->
  recognized (FileClassifiedEvent.document_type ev4) = false ->
  workflow_run run_context env start w =
  (Raise (ValueError ("Unknown document type: "
                      +:+ FileClassifiedEvent.document_type ev4)),
   mkWorld (fs w4) (store w)
     (stream w4 ++ [extract_started ev4; extract_failed env ev4 (unknown_type ev4);
                    extract_started ev4; extract_failed env ev4 (unknown_type ev4);
                    extract_started ev4; extract_failed env ev4 (unknown_type ev4)])
     (calls w4) (agents w4) (slept w4 ++ [10; 10])).
Proof.
  intros H4 Hrec. rewrite workflow_run_after_classify.
  rewrite (bind_eval_Ok _ _ _ _ _ H4).
  apply through_classify_Ok in H4 as (_ & Hstore & content & _ & Hfile).
  unfold after_classify.
  erewrite bind_eval_Raise by (by eapply extract_unknown_step).
  by rewrite Hstore.
Qed.

Definition unknown_form_env : Env :=
  Sample.env Sample.text "unknown-form" None Sample.no_fault.

Definition unknown_form_classified : Outcome FileClassifiedEvent.t * World :=
  through_classify run_context unknown_form_env (FileEvent.Build "f1") Sample.empty_world.

Definition unknown_form_event : FileClassifiedEvent.t :=
  FileClassifiedEvent.Build "f1" "/tmp/report.pdf" "report.pdf" Sample.text
    "unknown-form" 0%float.

(** The label "unknown-form": the run fails, nothing is stored, and the last
    collaborator called is the classifier. *)
Lemma unknown_document_type_fails_on_unknown_form :
  workflow_run run_context unknown_form_env (FileEvent.Build "f1") Sample.empty_world =
  (Raise (ValueError "Unknown document type: unknown-form"),
   mkWorld (fs (snd unknown_form_classified)) []
     (stream (snd unknown_form_classified)
      ++ [extract_started unknown_form_event;
          extract_failed unknown_form_env unknown_form_event (unknown_type unknown_form_event);
          extract_started unknown_form_event;
          extract_failed unknown_form_env unknown_form_event (unknown_type unknown_form_event);
          extract_started unknown_form_event;
          extract_failed unknown_form_env unknown_form_event (unknown_type unknown_form_event)])
     (calls (snd unknown_form_classified)) (agents (snd unknown_form_classified))
     (slept (snd unknown_form_classified) ++ [10; 10])).
Proof.
  apply (unknown_document_type_fails unknown_form_env (FileEvent.Build "f1")
           Sample.empty_world unknown_form_event (snd unknown_form_classified)).
  - by vm_compute.
  - reflexivity.
Defined.

(** ** One payload slot *)

(** C5. Whenever the extraction step returns, it returns an
    [ExtractedEvent] whose schema names the document type of the event it
    was given and has exactly one payload slot filled, the slot of that
    type; the other two are [None]. *)
Theorem extracted_record_has_one_slot ctx env event w r w' :
  extract_data_based_on_type ctx env event w = (Ok r, w') ->
  exists s,
    ExtractedData.data (event_data r) = Typed s /\
    one_slot (FileClassifiedEvent.document_type event) s /\
    MySchema.populated s = 1.
Proof.
  intros H. apply extract_data_based_on_type_Ok in H as (content & s & _ & -> & Hs).
  exists s. split; [done|]. split; [done|]. unfold MySchema.populated.
  destruct Hs as (_ & [(_ & [? ->] & -> & ->)|[(_ & -> & [? ->] & ->)|(_ & -> & -> & [? ->])]]);
    reflexivity.
Qed.

Definition annual_event : FileClassifiedEvent.t :=
  FileClassifiedEvent.Build "f1" "/tmp/report.pdf" "report.pdf" Sample.text "10-k" 0%float.

Definition annual_extraction : Outcome ExtractedOrInvalid * World :=
  extract_data_based_on_type run_context
    (Sample.env Sample.text "10-k" None Sample.no_fault) annual_event
    (set_fs {["/tmp/report.pdf" := [x41; x42; x43]]} Sample.empty_world).

(** A 10-K: the slot of the annual report is filled, the other two are not. *)
Lemma extracted_record_has_one_slot_annual :
  exists s,
    ExtractedData.data
      (event_data (ExtractedEvent
         (ExtractedData.create
            (Typed (MySchema.Build (Some "10-k")
                      (Some (Form10KData.Build (Some "100M") (Some "10M")
                               (Some "500M") (Some "300M"))) None None))
            "f1" "report.pdf" (Some "sha256:ABC")))) = Typed s /\
    one_slot "10-k" s /\ MySchema.populated s = 1.
Proof.
  apply (extracted_record_has_one_slot run_context
           (Sample.env Sample.text "10-k" None Sample.no_fault) annual_event
           (set_fs {["/tmp/report.pdf" := [x41; x42; x43]]} Sample.empty_world)
           _ (snd annual_extraction)).
  by vm_compute.
Defined.

(** ** Confidence *)

(** C9. Whenever the classification step returns, the confidence of the
    event it returns is [x or 0.0] for the confidence [x] of the first
    item the classifier answered with: 0.0 when the classifier gave none.
    The field is a float, never [None], in the event every later step
    receives. *)
Theorem confidence_defaults_to_zero env event w ev w' :
  classify_document run_context env event w = (Ok ev, w') ->
  exists first rest,
    aclassify_reply env (calls w') = inr (first :: rest) /\
    FileClassifiedEvent.document_type ev = ClassificationResult.type first /\
    FileClassifiedEvent.confidence ev = or_zero (ClassificationResult.confidence first) /\
    (ClassificationResult.confidence first = None ->
     FileClassifiedEvent.confidence ev = 0%float).
Proof.
  intros H. apply classify_document_exits in H. inversion H; subst.
  exists first, rest. cbn. repeat split; [done|]. by intros ->.
Qed.

Definition parsed_event : FileParsedEvent.t :=
  FileParsedEvent.Build "f1" "/tmp/report.pdf" "report.pdf" Sample.text.

Definition classification_without_confidence : Outcome FileClassifiedEvent.t * World :=
  classify_document run_context (Sample.env Sample.text "10-k" None Sample.no_fault)
    parsed_event Sample.empty_world.

(** A classifier that answers without a confidence. *)
Lemma confidence_defaults_to_zero_when_absent :
  exists first rest,
    aclassify_reply (Sample.env Sample.text "10-k" None Sample.no_fault)
      (calls (snd classification_without_confidence)) = inr (first :: rest) /\
    FileClassifiedEvent.document_type annual_event = ClassificationResult.type first /\
    FileClassifiedEvent.confidence annual_event
      = or_zero (ClassificationResult.confidence first) /\
    (ClassificationResult.confidence first = None ->
     FileClassifiedEvent.confidence annual_event = 0%float).
Proof.
  apply (confidence_defaults_to_zero
           (Sample.env Sample.text "10-k" None Sample.no_fault)
           parsed_event Sample.empty_world annual_event
           (snd classification_without_confidence)).
  by vm_compute.
Defined.

(** ** The classification rules *)








(** ** A failed insertion after the deletions *)

(** Every search and every deletion succeeds, every insertion raises [e]. *)
Definition only_create_raises (env : Env) (e : Exception) : Prop :=
  forall history,
    data_fault env history =
    match last history with
    | Some (data_create_item _) => Some e
    | _ => None
    end.

Lemma gather_delete_items_Ok env e items w :
  only_create_raises env e ->
  exists w', gather (map (fun item => delete_item env (Item.id item)) items) w = (Ok tt, w').
Proof.
  intros Hf. revert w. induction items as [|item items IH]; intros w; simpl.
  - by eexists.
  - unfold delete_item at 1. rewrite data_client_eval, Hf, last_snoc. cbn. apply IH.
Qed.

Section NotAtomic.
Variable env : Env.
Variable event : ExtractedOrInvalid.
Variables (h : string) (e : Exception).
Hypothesis has_hash : ExtractedData.file_hash (event_data event) = Some h.
Hypothesis not_empty : h <> "".
Hypothesis faults : only_create_raises env e.

Lemma record_attempt_loses_records w :
  exists w', record_extracted_data run_context env event w = (Raise e, w') /\
             List.filter (has_file_hash h) (store w') = [].
Proof.
  unfold record_extracted_data, try_except.
  unfold bind at 1. cbn [write_event_to_stream run_context modify].
  unfold bind at 1.
  match goal with
  | |- context [match ?d ?u with _ => _ end] =>
      destruct (d u) as [r w2] eqn:D
  end.
  pose proof (dedup_part env event h has_hash not_empty _ _ _ D)
    as (_ & _ & _ & _ & _ & Hr).
  assert (exists x, r = Ok x) as [[] ->].
  { revert D. rewrite has_hash. cbn [default].
    rewrite (proj2 (truthy_str_Some h) not_empty).
    unfold bind, untyped_search. rewrite data_client_eval, faults, last_snoc. cbn.
    match goal with
    | |- context [List.filter ?f ?l] => destruct (List.filter f l) as [|it rest] eqn:F
    end.
    - intros D. inversion D. by eexists.
    - rewrite <- F.
      match goal with
      | |- context [gather ?t ?u] =>
          destruct (gather_delete_items_Ok env e (List.filter (has_file_hash h) (store w)) u faults)
            as [w3 G]
      end.
      cbn in G. rewrite G. intros D. inversion D. by eexists. }
  destruct Hr as [_ Hnone].
  unfold bind, create_item. rewrite data_client_eval, faults, last_snoc.
  rewrite report_and_raise_raises. eexists. split; [reflexivity|]. exact Hnone.
Qed.

Lemma record_step_loses_records w :
  exists w', with_retry (retry_policy step_record_extracted_data)
               (record_extracted_data run_context env event) w = (Raise e, w') /\
             List.filter (has_file_hash h) (store w') = [].
Proof.
  destruct (with_retry _ _ w) as [[stop|e'] w'] eqn:R.
  - apply with_retry_Ok in R as (w0 & R).
    destruct (record_attempt_loses_records w0) as (? & R' & _). congruence.
  - apply with_retry_Raise in R as (w0 & R).
    destruct (record_attempt_loses_records w0) as (w1 & R' & Hnone).
    rewrite R' in R. inversion R; subst. eauto.
Qed.
End NotAtomic.

(** C6. The recording step is not atomic. For a record with a non-empty
    fingerprint [h], when the searches and deletions succeed and the
    insertion raises [e]: one attempt of the step raises [e] and leaves no
    item of fingerprint [h] in the collection, however many it held before,
    and so does the step with its retries. The error branch only emits a
    toast and raises again. *)
Theorem record_is_not_atomic env event h e w :
  ExtractedData.file_hash (event_data event) = Some h ->
  h <> "" ->
  only_create_raises env e ->
  (exists w', record_extracted_data run_context env event w = (Raise e, w') /\
              List.filter (has_file_hash h) (store w') = []) /\
  (exists w', with_retry (retry_policy step_record_extracted_data)
                (record_extracted_data run_context env event) w = (Raise e, w') /\
              List.filter (has_file_hash h) (store w') = []).
Proof.
  intros Hh Hne Hf. split.
  - by eapply record_attempt_loses_records.
  - by eapply record_step_loses_records.
Qed.

Definition insert_fails (history : list Call) : option Exception :=
  match last history with
  | Some (data_create_item _) => Some (CollaboratorError "insert failed")
  | _ => None
  end.

Definition reprocessed : ExtractedOrInvalid :=
  ExtractedEvent
    (ExtractedData.create
       (Typed (MySchema.Build (Some "10-k")
                 (Some (Form10KData.Build (Some "100M") (Some "10M")
                          (Some "500M") (Some "300M"))) None None))
       "f2" "report.pdf" (Some "sha256:ABC")).

(** One record of the fingerprint before the attempt, none after it. *)
Lemma record_is_not_atomic_one_record_lost :
  length (List.filter (has_file_hash "sha256:ABC") (store (snd first_run))) = 1 /\
  (exists w', record_extracted_data run_context
                (Sample.env Sample.text "10-k" None insert_fails) reprocessed
                (snd first_run)
              = (Raise (CollaboratorError "insert failed"), w') /\
              List.filter (has_file_hash "sha256:ABC") (store w') = []) /\
  (exists w', with_retry (retry_policy step_record_extracted_data)
                (record_extracted_data run_context
                   (Sample.env Sample.text "10-k" None insert_fails) reprocessed)
                (snd first_run)
              = (Raise (CollaboratorError "insert failed"), w') /\
              List.filter (has_file_hash "sha256:ABC") (store w') = []).
Proof.
  split; [by vm_compute|].
  apply (record_is_not_atomic (Sample.env Sample.text "10-k" None insert_fails)
           reprocessed "sha256:ABC" (CollaboratorError "insert failed") (snd first_run)).
  - reflexivity.
  - discriminate.
  - intros history. reflexivity.
Defined.

(** ** The retry policy *)

(** Following the spec's words: the world in which invocation [k] (counted
    from 0) of the operation starts, every invocation before it having
    raised and the delay having been waited after each. *)
Fixpoint invocation_start {A : Type} (delay : nat) (operation : M A) (k : nat)
    (w : World) : World :=
  match k with
  | 0 => w
  | S k' =>
      let w1 := snd (operation (invocation_start delay operation k' w)) in
      set_slept (slept w1 ++ [delay]) w1
  end.

(** The operation of some step raised [e] from [w0] and left [w']. *)
Inductive raised_by_a_step (env : Env) (e : Exception) (w0 w' : World) : Prop :=
| raised_by_run_file start :
    run_file start w0 = (Raise e, w') -> raised_by_a_step env e w0 w'
| raised_by_download_file event :
    download_file run_context env event w0 = (Raise e, w') ->
    raised_by_a_step env e w0 w'
| raised_by_parse_document event :
    parse_document run_context env event w0 = (Raise e, w') ->
    raised_by_a_step env e w0 w'
| raised_by_classify_document event :
    classify_document run_context env event w0 = (Raise e, w') ->
    raised_by_a_step env e w0 w'
| raised_by_extract_data_based_on_type event :
    extract_data_based_on_type run_context env event w0 = (Raise e, w') ->
    raised_by_a_step env e w0 w'
| raised_by_record_extracted_data event :
    record_extracted_data run_context env event w0 = (Raise e, w') ->
    raised_by_a_step env e w0 w'.

Lemma attempt_invocations {A : Type} delay more (operation : M A) w :
  exists k, k <= more /\
    attempt delay more operation w = operation (invocation_start delay operation k w) /\
    (forall j, j < k ->
       exists e, fst (operation (invocation_start delay operation j w)) = Raise e) /\
    (forall e, fst (attempt delay more operation w) = Raise e -> k = more).
Proof.
  revert w. induction more as [|more IH]; intros w.
  - exists 0. simpl. destruct (operation w) as [[a|e] w1]; repeat split; auto; lia.
  - simpl. destruct (operation w) as [[a|e] w1] eqn:E.
    + exists 0. simpl. rewrite E. repeat split; [lia|lia|discriminate].
    + destruct (IH (set_slept (slept w1 ++ [delay]) w1)) as (k & Hk & Heq & Hbefore & Hlast).
      assert (forall j, invocation_start delay operation (S j) w =
                        invocation_start delay operation j (set_slept (slept w1 ++ [delay]) w1))
        as Hshift.
      { induction j as [|j IHj]; simpl; [by rewrite E|].
        simpl in IHj. by rewrite IHj. }
      exists (S k). split; [lia|]. unfold bind, sleep, modify. split; [|split].
      * rewrite Hshift. exact Heq.
      * intros [|j] Hj; [simpl; rewrite E; eauto|]. rewrite Hshift. apply Hbefore. lia.
      * intros e' He'. f_equal. by eapply Hlast.
Qed.

(** C3. Every step carries the policy of three attempts, ten apart. Under
    it the outcome of a step is the outcome of invocation [k < 3] of its
    operation, reached after every earlier invocation raised and ten was
    waited after each; when the step raises, it raises what the third
    invocation raised. A run fails with an error that the operation of one
    of its steps raised, and in the world that operation left; and when the
    steps up to some point fail, the run fails with their error. *)
Theorem retry_policy_three_attempts_ten_apart :
  (forall s, retry_policy s = ConstantDelayRetryPolicy.Build 3 10) /\
  (forall (A : Type) (s : Step) (operation : M A) (w : World),
     exists k, k < 3 /\
       with_retry (retry_policy s) operation w
         = operation (invocation_start 10 operation k w) /\
       (forall j, j < k ->
          exists e, fst (operation (invocation_start 10 operation j w)) = Raise e) /\
       (forall e, fst (with_retry (retry_policy s) operation w) = Raise e -> k = 2)) /\
  (forall env start w e w',
     workflow_run run_context env start w = (Raise e, w') ->
     exists w0, raised_by_a_step env e w0 w') /\
  (forall ctx env start w e w',
     through_download ctx env start w = (Raise e, w') \/
     through_classify ctx env start w = (Raise e, w') \/
     through_extract ctx env start w = (Raise e, w') ->
     workflow_run ctx env start w = (Raise e, w')).
Proof.
  split; [by intros []|]. split; [|split].
  - intros A s operation w.
    destruct (attempt_invocations 10 2 operation w) as (k & Hk & Heq & Hbefore & Hlast).
    exists k. split; [lia|]. by destruct s.
  - intros env start w e w' H.
    unfold workflow_run, through_extract, through_classify, through_download in H.
    repeat match goal with
           | H : bind _ _ _ = (Raise _, _) |- _ =>
               apply bind_Raise in H as [H|(? & ? & ? & H)]
           end;
      try discriminate;
      match goal with
      | H : with_retry _ _ _ = (Raise _, _) |- _ =>
          apply with_retry_Raise in H as (w0 & H); exists w0
      end;
      first [ by eapply raised_by_run_file
            | by eapply raised_by_download_file
            | by eapply raised_by_parse_document
            | by eapply raised_by_classify_document
            | by eapply raised_by_extract_data_based_on_type
            | by eapply raised_by_record_extracted_data ].
  - intros ctx env start w e w' [H|[H|H]].
    + rewrite workflow_run_after_download. by apply bind_eval_Raise.
    + rewrite workflow_run_after_classify. by apply bind_eval_Raise.
    + unfold workflow_run. by apply bind_eval_Raise.
Qed.

(** A parser that is busy twice and answers the third time. *)
Definition parser_calls (history : list Call) : nat :=
  length (List.filter (fun c => match c with parser_aparse _ _ => true | _ => false end)
            history).

Definition flaky_env : Env :=
  let base := Sample.env Sample.text "10-k" None Sample.no_fault in
  mkEnv (gettempdir base) (LLAMA_DEPLOY_DEPLOYMENT_NAME base) (sha256_hexdigest base)
    (str_of_exception base) (format_percent base) (random_name base)
    (get_file_reply base) (read_file_content_reply base) (stream_reply base)
    (fun history =>
       if Nat.ltb (parser_calls history) 3 then inl (CollaboratorError "busy")
       else inr "job-1")
    (aget_markdown_reply base) (aclassify_reply base) (get_agent_reply base)
    (create_agent_reply base) (aextract_reply base) (data_fault base) (new_item_id base)
    (open_fault base).

Definition downloaded_event : FileDownloadedEvent.t :=
  FileDownloadedEvent.Build "f1" "/tmp/report.pdf" "report.pdf".

Definition flaky_run : Outcome string * World :=
  workflow_run run_context flaky_env (FileEvent.Build "f1") Sample.empty_world.

(** The run completes after two waits, and the parsing step is the third
    invocation of its operation. *)
Lemma retry_policy_three_attempts_ten_apart_flaky_parser :
  (fst flaky_run = Ok "item-12" /\ slept (snd flaky_run) = [10; 10]) /\
  exists k, k < 3 /\
    with_retry (retry_policy step_parse_document)
      (parse_document run_context flaky_env downloaded_event) Sample.empty_world
    = parse_document run_context flaky_env downloaded_event
        (invocation_start 10 (parse_document run_context flaky_env downloaded_event)
           k Sample.empty_world) /\
    (forall j, j < k ->
       exists e,
         fst (parse_document run_context flaky_env downloaded_event
                (invocation_start 10 (parse_document run_context flaky_env downloaded_event)
                   j Sample.empty_world)) = Raise e) /\
    (forall e,
       fst (with_retry (retry_policy step_parse_document)
              (parse_document run_context flaky_env downloaded_event) Sample.empty_world)
       = Raise e -> k = 2).
Proof.
  split; [by vm_compute|].
  exact (proj1 (proj2 retry_policy_three_attempts_ten_apart) _ step_parse_document
           (parse_document run_context flaky_env downloaded_event) Sample.empty_world).
Defined.

(** ** The downloaded file *)

Definition unknown_form_run : Outcome string * World :=
  workflow_run run_context unknown_form_env (FileEvent.Build "f1") Sample.empty_world.

(** A run that completes and a run that fails: in both the downloaded file
    is still there when the run has ended. *)
Lemma downloaded_file_remains :
  (fst first_run = Ok "item-10" /\
   fs (snd first_run) !! "/tmp/report.pdf" = Some [x41; x42; x43]) /\
  (fst unknown_form_run = Raise (ValueError "Unknown document type: unknown-form") /\
   fs (snd unknown_form_run) !! "/tmp/report.pdf" = Some [x41; x42; x43]).
Proof. by vm_compute. Qed.

(** C7, as the code has it. No step removes the file the download step
    wrote: once that step has returned, the file holds the downloaded bytes
    when the run ends, whether the run completes or fails. *)
Theorem downloaded_file_is_never_removed env start w ev2 w2 r w' :
  through_download run_context env start w = (Ok ev2, w2) ->
  workflow_run run_context env start w = (r, w') ->
  exists content,
    downloaded_bytes env start w = Some content /\
    fs w' !! FileDownloadedEvent.file_path ev2 = Some content.
Proof.
  intros H2 H. rewrite workflow_run_after_download, (bind_eval_Ok _ _ _ _ _ H2) in H.
  apply through_download_Ok in H2 as (_ & _ & content & Hbytes & Hfile).
  exists content. split; [done|].
  exact (after_download_keeps_file env _ _ ev2 _ _ _ Hfile H).
Qed.

Lemma downloaded_file_is_never_removed_in_first_run :
  exists content,
    downloaded_bytes (Sample.env Sample.text "10-k" None Sample.no_fault)
      (FileEvent.Build "f1") Sample.empty_world = Some content /\
    fs (snd first_run) !! "/tmp/report.pdf" = Some content.
Proof.
  apply (downloaded_file_is_never_removed
           (Sample.env Sample.text "10-k" None Sample.no_fault)
           (FileEvent.Build "f1") Sample.empty_world
           (FileDownloadedEvent.Build "f1" "/tmp/report.pdf" "report.pdf")
           (snd (through_download run_context
                   (Sample.env Sample.text "10-k" None Sample.no_fault)
                   (FileEvent.Build "f1") Sample.empty_world))
           (fst first_run) (snd first_run)).
  - by vm_compute.
  - by vm_compute.
Defined.

(** ** The scratch file *)

(** Once the text is written, the scratch file is gone on every exit: the
    files after the step are the files before it. *)
Lemma scratch_file_removed_once_written env event w encoded :
  utf8_encode (FileParsedEvent.markdown_content event) = inr encoded ->
  fs (snd (classify_document run_context env event w)) = fs w.
Proof.
  intros U. destruct (classify_document run_context env event w) as [r w'] eqn:E.
  apply classify_document_exits in E. destruct E; try done. congruence.
Qed.

Definition surrogate_env : Env :=
  Sample.env [0xD800%N] "10-k" None Sample.no_fault.

Definition surrogate_event : FileParsedEvent.t :=
  FileParsedEvent.Build "f1" "/tmp/report.pdf" "report.pdf" [0xD800%N].

(** C8, on a text that UTF-8 refuses (a lone surrogate). The write into the
    scratch file raises before the [try ... finally] that unlinks it is
    entered: the step raises and the file stays, and a run whose parser
    answers with that text fails after three attempts and leaves three
    scratch files. *)
Theorem scratch_file_left_when_write_fails :
  (fst (classify_document run_context surrogate_env surrogate_event Sample.empty_world)
     = Raise (UnicodeEncodeError 0) /\
   map_to_list
     (fs (snd (classify_document run_context surrogate_env surrogate_event
                 Sample.empty_world)))
     = [("/tmp/tmp0.md", [])]) /\
  (fst (workflow_run run_context surrogate_env (FileEvent.Build "f1") Sample.empty_world)
     = Raise (UnicodeEncodeError 0) /\
   (let left_behind :=
      fs (snd (workflow_run run_context surrogate_env (FileEvent.Build "f1")
                 Sample.empty_world)) in
    left_behind !! "/tmp/tmp0.md" = Some [] /\
    left_behind !! "/tmp/tmp1.md" = Some [] /\
    left_behind !! "/tmp/tmp2.md" = Some [])).
Proof. by vm_compute. Qed.

(** ** Progress events *)

(** A context whose emission raises [e], whatever the event. *)
Definition emission_raises (ctx : Context) (e : Exception) : Prop :=
  forall t w, fst (write_event_to_stream ctx t w) = Raise e.

Lemma report_and_raise_emission_raises {A : Type} ctx env what e e0 w :
  emission_raises ctx e ->
  fst (@report_and_raise A ctx env what e0 w) = Raise e.
Proof.
  intros Hraises. unfold report_and_raise, bind.
  specialize (Hraises (toast error (what +:+ ": " +:+ str_of_exception env e0)) w).
  destruct (write_event_to_stream ctx _ w) as [[[]|e1] w1]; cbn in *; congruence.
Qed.

(** The download step emits before it opens the stream, and its handler
    emits again: with an emission that raises [e], every attempt ends with
    [e], also when the error at hand was another one. *)
Lemma download_file_emission_raises ctx env event e w :
  emission_raises ctx e ->
  fst (download_file ctx env event w) = Raise e.
Proof.
  intros Hraises. unfold download_file, try_except.
  match goal with
  | |- fst (match ?body w with _ => _ end) = _ => destruct (body w) as [[ev|e0] w1] eqn:E
  end.
  - apply bind_Ok in E as (name & u1 & _ & E).
    apply bind_Ok in E as (url & u2 & _ & E).
    apply bind_Ok in E as ([] & u3 & Hemit & _).
    specialize (Hraises (toast info ("Downloading file " +:+ name)) u2).
    rewrite Hemit in Hraises. discriminate.
  - by apply report_and_raise_emission_raises.
Qed.

Lemma attempt_always_raises {A : Type} delay more (operation : M A) e w :
  (forall u, fst (operation u) = Raise e) ->
  fst (attempt delay more operation w) = Raise e.
Proof.
  intros Hop. revert w. induction more as [|more IH]; intros w; simpl;
    specialize (Hop w) as Hw; destruct (operation w) as [[a|e0] w1]; cbn in *;
    try discriminate; try done.
Qed.

Lemma workflow_run_emission_raises ctx env start e w :
  emission_raises ctx e ->
  fst (workflow_run ctx env start w) = Raise e.
Proof.
  intros Hraises. rewrite workflow_run_after_download.
  unfold through_download.
  rewrite bind_assoc, (bind_eval_Ok _ _ _ _ _ (run_file_step _ _)).
  pose proof (attempt_always_raises 10 2 (download_file ctx env
    (DownloadFileEvent.Build (FileEvent.file_id start))) e w
    (fun u => download_file_emission_raises ctx env _ e u Hraises)) as H.
  unfold bind, with_retry. cbn [retry_policy ConstantDelayRetryPolicy.delay
    ConstantDelayRetryPolicy.maximum_attempts Nat.sub].
  destruct (attempt 10 2 _ w) as [[ev|e0] w2]; cbn in *; [discriminate|].
  by inversion H.
Qed.

(** An emitter that is out of order. *)
Definition failing_context : Context :=
  mkContext (fun _ => raise (CollaboratorError "stream closed")).

Definition silent_run : Outcome string * World :=
  workflow_run silent_context (Sample.env Sample.text "10-k" None Sample.no_fault)
    (FileEvent.Build "f1") Sample.empty_world.

Definition failing_emitter_run : Outcome string * World :=
  workflow_run failing_context (Sample.env Sample.text "10-k" None Sample.no_fault)
    (FileEvent.Build "f1") Sample.empty_world.

(** With every emission removed the run stores its record; with an emitter
    that raises, the same run on the same input fails with the error of the
    emitter after three attempts of the download step, and stores nothing:
    no step catches what the emission raises. *)
Lemma emission_failure_fails_the_run :
  (fst silent_run = Ok "item-10" /\ length (store (snd silent_run)) = 1) /\
  (fst failing_emitter_run = Raise (CollaboratorError "stream closed") /\
   store (snd failing_emitter_run) = [] /\
   calls (snd failing_emitter_run)
     = [files_get_file "f1"; files_read_file_content "f1";
        files_get_file "f1"; files_read_file_content "f1";
        files_get_file "f1"; files_read_file_content "f1"]).
Proof. by vm_compute. Qed.

(** C10, as the code has it. For an emitter that returns and touches
    nothing but the stream, the run and the run with every emission removed
    end with the same outcome (the same identifier, or the same error) and
    in worlds that differ in the stream only: the same files, the same
    collection, the same calls to the collaborators, the same waits. An
    emission that raises is not swallowed: the steps call the emitter
    inside their [try] and again in their [except] block, so the run fails
    with the error of the emitter. *)
Theorem progress_events_are_observation_only ctx broken e env start w :
  emits_quietly ctx ->
  emission_raises broken e ->
  (fst (workflow_run ctx env start w)
     = fst (workflow_run silent_context env start w) /\
   erase (snd (workflow_run ctx env start w))
     = erase (snd (workflow_run silent_context env start w))) /\
  fst (workflow_run broken env start w) = Raise e.
Proof.
  intros Hquiet Hraises. split.
  - exact (sim_workflow_run ctx Hquiet env start w w eq_refl).
  - by apply workflow_run_emission_raises.
Qed.

Lemma progress_events_are_observation_only_first_run :
  (emits_quietly run_context /\
   emission_raises failing_context (CollaboratorError "stream closed")) /\
  (fst first_run = fst silent_run /\
   erase (snd first_run) = erase (snd silent_run)) /\
  fst failing_emitter_run = Raise (CollaboratorError "stream closed").
Proof.
  assert (emits_quietly run_context) as Hquiet by (by intros t w).
  assert (emission_raises failing_context (CollaboratorError "stream closed"))
    as Hraises by (by intros t w).
  split; [by split|].
  exact (progress_events_are_observation_only run_context failing_context
           (CollaboratorError "stream closed")
           (Sample.env Sample.text "10-k" None Sample.no_fault)
           (FileEvent.Build "f1") Sample.empty_world Hquiet Hraises).
Defined.

(** * Further properties of the steps *)

(** ** The download step *)

Section Download.
Variable env : Env.
Variable event : DownloadFileEvent.t.
Variable w : World.

Let file_id := DownloadFileEvent.file_id event.

(** The histories at which the three collaborators of the step answer. *)
Definition asked_metadata : list Call := calls w ++ [files_get_file file_id].

Definition asked_url : list Call := asked_metadata ++ [files_read_file_content file_id].

Definition asked_stream (url : string) : list Call := asked_url ++ [client_stream_GET url].

Definition download_started (name : string) : UIToast.t :=
  toast info ("Downloading file " +:+ name).

Definition download_failed (e : Exception) : UIToast.t :=
  toast error ("Error downloading file " +:+ file_id +:+ ": " +:+ str_of_exception env e).

Lemma download_file_streamed name url chunks failure :
  get_file_reply env asked_metadata = inr name ->
  read_file_content_reply env asked_url = inr url ->
  stream_reply env (asked_stream url) = inr (chunks, failure) ->
  open_fault env (path_join (gettempdir env) name) = None ->
  download_file run_context env event w =
  match failure with
  | None =>
      (Ok (FileDownloadedEvent.Build file_id (path_join (gettempdir env) name) name),
       mkWorld (<[path_join (gettempdir env) name := concat chunks]> (fs w)) (store w)
         (stream w ++ [download_started name]) (asked_stream url) (agents w) (slept w))
  | Some e =>
      (Raise e,
       mkWorld (<[path_join (gettempdir env) name := concat chunks]> (fs w)) (store w)
         (stream w ++ [download_started name; download_failed e])
         (asked_stream url) (agents w) (slept w))
  end.
Proof.
  intros Hname Hurl Hstream Hopen.
  unfold download_file, try_except, bind, call, open_wb. fold file_id. cbn.
  fold asked_metadata. rewrite Hname. cbn.
  fold asked_url. rewrite Hurl. cbn.
  fold (asked_stream url). rewrite Hstream. cbn. rewrite Hopen. cbn.
  rewrite insert_insert_eq.
  destruct failure as [e|]; cbn; [|done].
  unfold set_stream. cbn. by rewrite <- app_assoc.
Qed.

Lemma download_file_refused name url response e :
  get_file_reply env asked_metadata = inr name ->
  read_file_content_reply env asked_url = inr url ->
  stream_reply env (asked_stream url) = inr response ->
  open_fault env (path_join (gettempdir env) name) = Some e ->
  download_file run_context env event w =
  (Raise e,
   mkWorld (fs w) (store w)
     (stream w ++ [download_started name; download_failed e])
     (asked_stream url) (agents w) (slept w)).
Proof.
  intros Hname Hurl Hstream Hopen.
  unfold download_file, try_except, bind, call, open_wb. fold file_id. cbn.
  fold asked_metadata. rewrite Hname. cbn.
  fold asked_url. rewrite Hurl. cbn.
  fold (asked_stream url). rewrite Hstream. cbn. rewrite Hopen. cbn.
  unfold set_stream. cbn. by rewrite <- app_assoc.
Qed.
End Download.

(** X1. When the file store answers with a name and a URL, the file
    [os.path.join(tempdir, name)] can be opened for writing and the stream
    delivers its chunks to the end, the download step returns the event of
    that file, and the file holds the chunks in the order of their arrival,
    whatever it held before; the collection is not touched and one info
    toast is written. *)
Theorem download_file_writes_the_chunks env event w name url chunks :
  get_file_reply env (asked_metadata event w) = inr name ->
  read_file_content_reply env (asked_url event w) = inr url ->
  stream_reply env (asked_stream event w url) = inr (chunks, None) ->
  open_fault env (path_join (gettempdir env) name) = None ->
  download_file run_context env event w =
  (Ok (FileDownloadedEvent.Build (DownloadFileEvent.file_id event)
         (path_join (gettempdir env) name) name),
   mkWorld (<[path_join (gettempdir env) name := concat chunks]> (fs w)) (store w)
     (stream w ++ [download_started name]) (asked_stream event w url)
     (agents w) (slept w)).
Proof.
  intros Hn Hu Hs Ho.
  by rewrite (download_file_streamed env event w name url chunks None).
Qed.

Definition sample_env : Env := Sample.env Sample.text "10-k" None Sample.no_fault.

Lemma download_file_writes_the_chunks_sample :
  download_file run_context sample_env (DownloadFileEvent.Build "f1") Sample.empty_world =
  (Ok (FileDownloadedEvent.Build "f1" (path_join "/tmp" "report.pdf") "report.pdf"),
   mkWorld (<[path_join "/tmp" "report.pdf" := concat [[x41; x42]; [x43]]]> ∅) []
     ([] ++ [download_started "report.pdf"])
     (asked_stream (DownloadFileEvent.Build "f1") Sample.empty_world
        "https://files.example/f")
     ∅ []).
Proof.
  apply (download_file_writes_the_chunks sample_env (DownloadFileEvent.Build "f1")
           Sample.empty_world "report.pdf" "https://files.example/f" [[x41; x42]; [x43]]);
    reflexivity.
Defined.

(** X2. When the file could be opened for writing and the stream breaks
    off with an exception after some chunks, the step raises that exception
    and the file is left on disk with the chunks that had arrived: a partial
    download is not removed. The error toast follows the info toast. *)
Theorem download_file_keeps_partial_file env event w name url chunks e :
  get_file_reply env (asked_metadata event w) = inr name ->
  read_file_content_reply env (asked_url event w) = inr url ->
  stream_reply env (asked_stream event w url) = inr (chunks, Some e) ->
  open_fault env (path_join (gettempdir env) name) = None ->
  download_file run_context env event w =
  (Raise e,
   mkWorld (<[path_join (gettempdir env) name := concat chunks]> (fs w)) (store w)
     (stream w ++ [download_started name; download_failed env event e])
     (asked_stream event w url) (agents w) (slept w)).
Proof.
  intros Hn Hu Hs Ho.
  by rewrite (download_file_streamed env event w name url chunks (Some e)).
Qed.

(** A stream that breaks off after its first chunk. *)
Definition broken_stream_env : Env :=
  mkEnv (gettempdir sample_env) (LLAMA_DEPLOY_DEPLOYMENT_NAME sample_env)
    (sha256_hexdigest sample_env) (str_of_exception sample_env)
    (format_percent sample_env) (random_name sample_env)
    (get_file_reply sample_env) (read_file_content_reply sample_env)
    (fun _ => inr ([[x41; x42]], Some (CollaboratorError "connection reset")))
    (aparse_reply sample_env) (aget_markdown_reply sample_env)
    (aclassify_reply sample_env) (get_agent_reply sample_env)
    (create_agent_reply sample_env) (aextract_reply sample_env)
    (data_fault sample_env) (new_item_id sample_env)
    (open_fault sample_env).

Lemma download_file_keeps_partial_file_sample :
  download_file run_context broken_stream_env (DownloadFileEvent.Build "f1")
    Sample.empty_world =
  (Raise (CollaboratorError "connection reset"),
   mkWorld (<[path_join "/tmp" "report.pdf" := concat [[x41; x42]]]> ∅) []
     ([] ++ [download_started "report.pdf";
             download_failed broken_stream_env (DownloadFileEvent.Build "f1")
               (CollaboratorError "connection reset")])
     (asked_stream (DownloadFileEvent.Build "f1") Sample.empty_world
        "https://files.example/f")
     ∅ []).
Proof.
  apply (download_file_keeps_partial_file broken_stream_env (DownloadFileEvent.Build "f1")
           Sample.empty_world "report.pdf" "https://files.example/f" [[x41; x42]]
           (CollaboratorError "connection reset"));
    reflexivity.
Defined.

(** X20. When the file cannot be opened for writing (the name reported by
    the file store leads into a directory that does not exist, is empty, or
    names a place that is not writable), the download step raises the error
    of [open]: the request has been sent, no chunk is read, no file is
    written, and the error toast follows the info toast. *)
Theorem download_file_fails_when_open_fails env event w name url response e :
  get_file_reply env (asked_metadata event w) = inr name ->
  read_file_content_reply env (asked_url event w) = inr url ->
  stream_reply env (asked_stream event w url) = inr response ->
  open_fault env (path_join (gettempdir env) name) = Some e ->
  download_file run_context env event w =
  (Raise e,
   mkWorld (fs w) (store w)
     (stream w ++ [download_started name; download_failed env event e])
     (asked_stream event w url) (agents w) (slept w)).
Proof. intros Hn Hu Hs Ho. by apply (download_file_refused env event w name url response). Qed.

(** A file store that reports a name with a directory part, in a temp
    directory that has no such directory. *)
Definition missing_directory_env : Env :=
  mkEnv (gettempdir sample_env) (LLAMA_DEPLOY_DEPLOYMENT_NAME sample_env)
    (sha256_hexdigest sample_env) (str_of_exception sample_env)
    (format_percent sample_env) (random_name sample_env)
    (fun _ => inr "nodir/report.pdf") (read_file_content_reply sample_env)
    (stream_reply sample_env)
    (aparse_reply sample_env) (aget_markdown_reply sample_env)
    (aclassify_reply sample_env) (get_agent_reply sample_env)
    (create_agent_reply sample_env) (aextract_reply sample_env)
    (data_fault sample_env) (new_item_id sample_env)
    (fun path =>
       if String.eqb path "/tmp/nodir/report.pdf" then Some (FileNotFoundError path)
       else None).

Lemma download_file_fails_when_open_fails_sample :
  download_file run_context missing_directory_env (DownloadFileEvent.Build "f1")
    Sample.empty_world =
  (Raise (FileNotFoundError "/tmp/nodir/report.pdf"),
   mkWorld ∅ []
     ([] ++ [download_started "nodir/report.pdf";
             download_failed missing_directory_env (DownloadFileEvent.Build "f1")
               (FileNotFoundError "/tmp/nodir/report.pdf")])
     (asked_stream (DownloadFileEvent.Build "f1") Sample.empty_world
        "https://files.example/f")
     ∅ []).
Proof.
  apply (download_file_fails_when_open_fails missing_directory_env
           (DownloadFileEvent.Build "f1") Sample.empty_world "nodir/report.pdf"
           "https://files.example/f" ([[x41; x42]; [x43]], None)
           (FileNotFoundError "/tmp/nodir/report.pdf"));
    reflexivity.
Defined.

Lemma call_Ok {A : Type} (c : Call) (reply : list Call -> Exception + A) w a w' :
  call c reply w = (Ok a, w') ->
  reply (calls w ++ [c]) = inr a /\ w' = set_calls (calls w ++ [c]) w.
Proof.
  unfold call. destruct (reply _) as [e|a0]; intros E; inversion E; by subst.
Qed.

Lemma path_join_absolute dir name :
  startswith_sep name = true -> path_join dir name = name.
Proof. unfold path_join. by intros ->. Qed.

(** X3. The file is written where [os.path.join] puts it: a name that the
    file store reports with a leading "/" is taken as it is, so the file of
    the event lies at that absolute path and not under the temp directory;
    any other name is appended to the temp directory. *)
Theorem download_file_path_follows_the_name env event w ev w' :
  download_file run_context env event w = (Ok ev, w') ->
  FileDownloadedEvent.file_path ev
    = path_join (gettempdir env) (FileDownloadedEvent.filename ev) /\
  (startswith_sep (FileDownloadedEvent.filename ev) = true ->
   FileDownloadedEvent.file_path ev = FileDownloadedEvent.filename ev) /\
  (startswith_sep (FileDownloadedEvent.filename ev) = false ->
   exists sep, (sep = "" \/ sep = "/") /\
     FileDownloadedEvent.file_path ev
       = gettempdir env +:+ sep +:+ FileDownloadedEvent.filename ev).
Proof.
  unfold download_file. intros E. apply try_except_report_Ok in E.
  apply bind_Ok in E as (name & w1 & _ & E).
  apply bind_Ok in E as (url & w2 & _ & E).
  apply bind_Ok in E as ([] & w3 & _ & E).
  apply bind_Ok in E as ([chunks failure] & w4 & _ & E).
  apply bind_Ok in E as ([] & w5 & _ & E).
  apply bind_Ok in E as ([] & w6 & _ & E).
  cbn in E. destruct failure; [discriminate|]. inversion E; subst. cbn.
  split; [done|]. split; [apply path_join_absolute|].
  intros Hrel. unfold path_join. rewrite Hrel.
  destruct (_ || _); [exists ""|exists "/"]; eauto.
Qed.

(** A file store that reports an absolute name. *)
Definition absolute_name_env : Env :=
  mkEnv (gettempdir sample_env) (LLAMA_DEPLOY_DEPLOYMENT_NAME sample_env)
    (sha256_hexdigest sample_env) (str_of_exception sample_env)
    (format_percent sample_env) (random_name sample_env)
    (fun _ => inr "/etc/report.pdf") (read_file_content_reply sample_env)
    (stream_reply sample_env)
    (aparse_reply sample_env) (aget_markdown_reply sample_env)
    (aclassify_reply sample_env) (get_agent_reply sample_env)
    (create_agent_reply sample_env) (aextract_reply sample_env)
    (data_fault sample_env) (new_item_id sample_env)
    (open_fault sample_env).

Definition absolute_name_download : Outcome FileDownloadedEvent.t * World :=
  download_file run_context absolute_name_env (DownloadFileEvent.Build "f1")
    Sample.empty_world.

Lemma download_file_path_follows_the_name_absolute :
  let ev := FileDownloadedEvent.Build "f1" "/etc/report.pdf" "/etc/report.pdf" in
  FileDownloadedEvent.file_path ev
    = path_join (gettempdir absolute_name_env) (FileDownloadedEvent.filename ev) /\
  (startswith_sep (FileDownloadedEvent.filename ev) = true ->
   FileDownloadedEvent.file_path ev = FileDownloadedEvent.filename ev) /\
  (startswith_sep (FileDownloadedEvent.filename ev) = false ->
   exists sep, (sep = "" \/ sep = "/") /\
     FileDownloadedEvent.file_path ev
       = gettempdir absolute_name_env +:+ sep +:+ FileDownloadedEvent.filename ev).
Proof.
  apply (download_file_path_follows_the_name absolute_name_env
           (DownloadFileEvent.Build "f1") Sample.empty_world
           (FileDownloadedEvent.Build "f1" "/etc/report.pdf" "/etc/report.pdf")
           (snd absolute_name_download)).
  by vm_compute.
Defined.

(** ** The parsing step *)

Lemma get_Ok {A : Type} (f : World -> A) w a w' :
  get f w = (Ok a, w') -> a = f w /\ w' = w.
Proof. unfold get. intros E. inversion E; by subst. Qed.

(** The files are exactly [files]. *)
Definition files_are (files : gmap string bytes) (w : World) : Prop := fs w = files.

Lemma Frame_files_are files : Frame (files_are files).
Proof. by split. Qed.

(** X4. The parsing step only reads: whatever its outcome, the files and
    the collection are what they were. When it returns, the event carries
    the file identifier, path and name it was given, and its text is what
    [aget_markdown] answered, the last of the two calls the step made; the
    parser was shown the bytes of the file at [file_path]. *)
Theorem parse_document_only_reads env event w r w' :
  parse_document run_context env event w = (r, w') ->
  fs w' = fs w /\ store w' = store w /\
  (forall ev, r = Ok ev ->
     exists job,
       aparse_reply env
         (calls w ++ [parser_aparse (FileDownloadedEvent.file_path event)
                        (fs w !! FileDownloadedEvent.file_path event)]) = inr job /\
       calls w' = calls w
                  ++ [parser_aparse (FileDownloadedEvent.file_path event)
                        (fs w !! FileDownloadedEvent.file_path event);
                      parse_result_aget_markdown job] /\
       aget_markdown_reply env (calls w') = inr (FileParsedEvent.markdown_content ev) /\
       ev = FileParsedEvent.Build (FileDownloadedEvent.file_id event)
              (FileDownloadedEvent.file_path event)
              (FileDownloadedEvent.filename event)
              (FileParsedEvent.markdown_content ev)).
Proof.
  intros E. split; [|split].
  - exact (preserves_parse_document (files_are (fs w)) (Frame_files_are _)
             env event w r w' eq_refl E).
  - exact (preserves_parse_document (store_is (store w)) (Frame_store_is _)
             env event w r w' eq_refl E).
  - intros ev ->. unfold parse_document in E. apply try_except_report_Ok in E.
    apply bind_Ok in E as ([] & w1 & H1 & E). inversion H1; subst w1. clear H1.
    apply bind_Ok in E as (content & w2 & H2 & E).
    apply get_Ok in H2 as [-> ->]. cbn [fs set_stream] in E.
    apply bind_Ok in E as (job & w3 & H3 & E). apply call_Ok in H3 as [Hjob ->].
    apply bind_Ok in E as (markdown & w4 & H4 & E). apply call_Ok in H4 as [Hmd ->].
    apply bind_Ok in E as ([] & w5 & H5 & E). inversion H5; subst w5. clear H5.
    inversion E; subst. clear E. cbn. exists job.
    split; [exact Hjob|]. split; [by rewrite <- app_assoc|]. split; [exact Hmd|done].
Qed.

Lemma parse_document_only_reads_sample :
  let event := FileDownloadedEvent.Build "f1" "/tmp/report.pdf" "report.pdf" in
  let w := set_fs {["/tmp/report.pdf" := [x41; x42; x43]]} Sample.empty_world in
  let rw := parse_document run_context sample_env event w in
  fs (snd rw) = fs w /\ store (snd rw) = store w /\
  (forall ev, fst rw = Ok ev ->
     exists job,
       aparse_reply sample_env
         (calls w ++ [parser_aparse (FileDownloadedEvent.file_path event)
                        (fs w !! FileDownloadedEvent.file_path event)]) = inr job /\
       calls (snd rw) = calls w
                  ++ [parser_aparse (FileDownloadedEvent.file_path event)
                        (fs w !! FileDownloadedEvent.file_path event);
                      parse_result_aget_markdown job] /\
       aget_markdown_reply sample_env (calls (snd rw))
         = inr (FileParsedEvent.markdown_content ev) /\
       ev = FileParsedEvent.Build (FileDownloadedEvent.file_id event)
              (FileDownloadedEvent.file_path event)
              (FileDownloadedEvent.filename event)
              (FileParsedEvent.markdown_content ev)).
Proof.
  cbv zeta.
  apply (parse_document_only_reads sample_env
           (FileDownloadedEvent.Build "f1" "/tmp/report.pdf" "report.pdf")
           (set_fs {["/tmp/report.pdf" := [x41; x42; x43]]} Sample.empty_world)).
  by destruct (parse_document _ _ _ _).
Defined.

(** ** The classification step *)



(** X6. A classifier that answers with no item at all: [items[0]] raises
    [IndexError]. Once the classifier has been called (the history has
    grown) and answered with the empty list, the step raises [IndexError],
    and the scratch file is gone. *)
Theorem classify_document_without_items env event w r w' :
  classify_document run_context env event w = (r, w') ->
  calls w' <> calls w ->
  aclassify_reply env (calls w') = inr [] ->
  r = Raise IndexError /\ fs w' = fs w.
Proof.
  intros E Hcalled Hreply. apply classify_document_exits in E.
  destruct E; cbn [calls fs] in *; try done; congruence.
Qed.

Definition no_item_env : Env :=
  mkEnv (gettempdir sample_env) (LLAMA_DEPLOY_DEPLOYMENT_NAME sample_env)
    (sha256_hexdigest sample_env) (str_of_exception sample_env)
    (format_percent sample_env) (random_name sample_env)
    (get_file_reply sample_env) (read_file_content_reply sample_env)
    (stream_reply sample_env)
    (aparse_reply sample_env) (aget_markdown_reply sample_env)
    (fun _ => inr []) (get_agent_reply sample_env)
    (create_agent_reply sample_env) (aextract_reply sample_env)
    (data_fault sample_env) (new_item_id sample_env)
    (open_fault sample_env).

Definition no_item_classification : Outcome FileClassifiedEvent.t * World :=
  classify_document run_context no_item_env parsed_event Sample.empty_world.

Lemma classify_document_without_items_sample :
  fst no_item_classification = Raise IndexError /\
  fs (snd no_item_classification) = fs Sample.empty_world.
Proof.
  apply (classify_document_without_items no_item_env parsed_event Sample.empty_world).
  - unfold no_item_classification. by destruct (classify_document _ _ _ _).
  - by vm_compute.
  - reflexivity.
Defined.

(** ** The extraction step *)

(** X7. The extraction step reads the bytes of the file before anything
    else: when the file at [file_path] is missing it raises
    [FileNotFoundError] at once. No collaborator is called, no agent is
    looked up, and the only toast is the error toast. *)
Theorem extract_data_based_on_type_missing_file env event w :
  fs w !! FileClassifiedEvent.file_path event = None ->
  extract_data_based_on_type run_context env event w =
  (Raise (FileNotFoundError (FileClassifiedEvent.file_path event)),
   set_stream
     (stream w ++ [extract_failed env event
                     (FileNotFoundError (FileClassifiedEvent.file_path event))]) w).
Proof.
  intros Hnone. unfold extract_data_based_on_type, try_except, bind, read_bytes.
  by rewrite Hnone.
Qed.

Lemma extract_data_based_on_type_missing_file_sample :
  extract_data_based_on_type run_context sample_env annual_event Sample.empty_world =
  (Raise (FileNotFoundError "/tmp/report.pdf"),
   set_stream
     (stream Sample.empty_world
      ++ [extract_failed sample_env annual_event (FileNotFoundError "/tmp/report.pdf")])
     Sample.empty_world).
Proof.
  apply (extract_data_based_on_type_missing_file sample_env annual_event Sample.empty_world).
  reflexivity.
Defined.

(** The schema built from the raw answer of the agent, by label. *)
Definition built_from (document_type : string) (raw : json) (s : MySchema.t) : Prop :=
  (document_type = "10-k" /\
   exists form, Form10KData.model_validate raw = inr form /\
                s = MySchema.Build (Some document_type) (Some form) None None) \/
  (document_type = "10-q" /\
   exists form, Form10QData.model_validate raw = inr form /\
                s = MySchema.Build (Some document_type) None (Some form) None) \/
  (document_type = "8-k" /\
   exists form, Form8KData.model_validate raw = inr form /\
                s = MySchema.Build (Some document_type) None None (Some form)).

(** The getter of [config.py] that answers for a label. *)
Definition getter_of_label (document_type : string) (env : Env)
  : option (M ExtractionAgent.t) :=
  if String.eqb document_type "10-k" then Some (get_extract_agent_for_10k env)
  else if String.eqb document_type "10-q" then Some (get_extract_agent_for_10q env)
  else if String.eqb document_type "8-k" then Some (get_extract_agent_for_8k env)
  else None.

(** X8. When the extraction step returns, the record it returns is built
    from what it read and was answered: the fingerprint is the digest of
    the bytes of the file at [file_path], the file identifier and name are
    the event's, the agent is the one the getter of the event's label
    returned, the extraction run on that agent was the one call the step
    made after the getter, with the text and the file name of the event,
    and the payload is the validated answer of that run. *)
Theorem extracted_record_is_built_from_the_answer env event w r w' :
  extract_data_based_on_type run_context env event w = (Ok r, w') ->
  exists content getter agent u raw s,
    fs w !! FileClassifiedEvent.file_path event = Some content /\
    r = ExtractedEvent
          (ExtractedData.create (Typed s) (FileClassifiedEvent.file_id event)
             (FileClassifiedEvent.filename event)
             (Some (sha256_hexdigest env content))) /\
    getter_of_label (FileClassifiedEvent.document_type event) env = Some getter /\
    getter (set_stream (stream w ++ [extract_started event]) w) = (Ok agent, u) /\
    calls w'
      = calls u
        ++ [agent_aextract agent
              (SourceText.Build (FileClassifiedEvent.markdown_content event)
                 (FileClassifiedEvent.filename event))] /\
    aextract_reply env (calls w') = inr raw /\
    built_from (FileClassifiedEvent.document_type event) raw s.
Proof.
  unfold extract_data_based_on_type. intros E. apply try_except_report_Ok in E.
  apply bind_Ok in E as (content & w1 & Hread & E).
  unfold read_bytes in Hread.
  destruct (fs w !! _) as [content'|] eqn:Hfile; inversion Hread; subst content' w1.
  clear Hread.
  apply bind_Ok in E as ([] & w2 & H2 & E). inversion H2; subst w2. clear H2.
  apply bind_Ok in E as (s & w3 & Hs & E).
  apply bind_Ok in E as ([] & w4 & H4 & E). inversion H4; subst w4. clear H4.
  inversion E; subst. clear E. cbn [calls set_stream].
  fold (extract_started event) in Hs.
  assert (exists getter agent u raw,
             getter_of_label (FileClassifiedEvent.document_type event) env = Some getter /\
             getter (set_stream (stream w ++ [extract_started event]) w) = (Ok agent, u) /\
             calls w3
               = calls u
                 ++ [agent_aextract agent
                       (SourceText.Build (FileClassifiedEvent.markdown_content event)
                          (FileClassifiedEvent.filename event))] /\
             aextract_reply env (calls w3) = inr raw /\
             built_from (FileClassifiedEvent.document_type event) raw s)
    as (getter & agent & u & raw & Hgetter & Hagent & Hcalls & Hraw & Hbuilt).
  { unfold built_from, getter_of_label.
    destruct (String.eqb _ "10-k") eqn:K; [|destruct (String.eqb _ "10-q") eqn:Q;
      [|destruct (String.eqb _ "8-k") eqn:K8; [|discriminate]]];
      apply bind_Ok in Hs as (agent & w5 & Hagent & Hs);
      apply bind_Ok in Hs as (raw & w6 & Hcall & Hs);
      apply call_Ok in Hcall as [Hraw ->];
      apply bind_Ok in Hs as (form & w7 & Hform & Hs);
      apply lift_Ok in Hform as [Hform ->];
      inversion Hs; subst; cbn [calls set_calls];
      eexists _, agent, w5, raw; (split; [reflexivity|]); (split; [exact Hagent|]);
      (split; [reflexivity|]); (split; [exact Hraw|]).
    - apply String.eqb_eq in K. left. eauto.
    - apply String.eqb_eq in Q. right; left. eauto.
    - apply String.eqb_eq in K8. right; right. eauto. }
  exists content, getter, agent, u, raw, s. by repeat split.
Qed.

Definition annual_record : ExtractedData.t :=
  ExtractedData.create
    (Typed (MySchema.Build (Some "10-k")
              (Some (Form10KData.Build (Some "100M") (Some "10M")
                       (Some "500M") (Some "300M"))) None None))
    "f1" "report.pdf" (Some "sha256:ABC").

Lemma extracted_record_is_built_from_the_answer_sample :
  exists content getter agent u raw s,
    fs (set_fs {["/tmp/report.pdf" := [x41; x42; x43]]} Sample.empty_world)
      !! FileClassifiedEvent.file_path annual_event = Some content /\
    ExtractedEvent annual_record
      = ExtractedEvent
          (ExtractedData.create (Typed s) (FileClassifiedEvent.file_id annual_event)
             (FileClassifiedEvent.filename annual_event)
             (Some (sha256_hexdigest sample_env content))) /\
    getter_of_label (FileClassifiedEvent.document_type annual_event) sample_env
      = Some getter /\
    getter (set_stream
              (stream (set_fs {["/tmp/report.pdf" := [x41; x42; x43]]} Sample.empty_world)
               ++ [extract_started annual_event])
              (set_fs {["/tmp/report.pdf" := [x41; x42; x43]]} Sample.empty_world))
      = (Ok agent, u) /\
    calls (snd annual_extraction)
      = calls u
        ++ [agent_aextract agent
              (SourceText.Build (FileClassifiedEvent.markdown_content annual_event)
                 (FileClassifiedEvent.filename annual_event))] /\
    aextract_reply sample_env (calls (snd annual_extraction)) = inr raw /\
    built_from (FileClassifiedEvent.document_type annual_event) raw s.
Proof.
  apply (extracted_record_is_built_from_the_answer sample_env annual_event
           (set_fs {["/tmp/report.pdf" := [x41; x42; x43]]} Sample.empty_world)
           (ExtractedEvent annual_record) (snd annual_extraction)).
  by vm_compute.
Defined.

(** ** The cached extraction agents ([config.py]) *)

(** The three getters, by the schema they bind. *)
Definition get_extract_agent_for (schema : Schema) (env : Env) : M ExtractionAgent.t :=
  match schema with
  | Form10K => get_extract_agent_for_10k env
  | Form10Q => get_extract_agent_for_10q env
  | Form8K => get_extract_agent_for_8k env
  end.

Definition getter_name (schema : Schema) : string :=
  match schema with
  | Form10K => "get_extract_agent_for_10k"
  | Form10Q => "get_extract_agent_for_10q"
  | Form8K => "get_extract_agent_for_8k"
  end.

Definition agent_name (env : Env) (schema : Schema) : string :=
  agent_name_or_default env +:+
  match schema with
  | Form10K => "-10k"
  | Form10Q => "-10q"
  | Form8K => "-8k"
  end.

Definition agent_config (schema : Schema) : ExtractConfig.t :=
  extract_config
    match schema with
    | Form10K => "Extract financial data from this 10-K annual report."
    | Form10Q => "Extract quarterly financial data from this 10-Q quarterly report."
    | Form8K => "Extract all events from this 8-K current report, including the event category (Item number) and description."
    end.

Lemma get_extract_agent_for_eq schema env :
  get_extract_agent_for schema env =
  lru_cache (getter_name schema)
    (get_or_create_agent env (agent_name env schema) schema (agent_config schema)).
Proof. by destruct schema. Qed.

Section Getter.
Variable env : Env.
Variable schema : Schema.
Variable w : World.

(** The histories at which the extraction API answers the lookup and the
    creation. *)
Definition asked_agent : list Call :=
  calls w ++ [extract_api_get_agent (agent_name env schema)].

Definition asked_creation : list Call :=
  asked_agent
  ++ [extract_api_create_agent (agent_name env schema) schema (agent_config schema)].

(** How a getter came to return [agent]: from its cache, from a lookup, or
    from a creation after the lookup answered 404. *)
Inductive agent_obtained (agent : ExtractionAgent.t) (w' : World) : Prop :=
| agent_cached :
    agents w !! getter_name schema = Some agent -> w' = w ->
    agent_obtained agent w'
| agent_found existing :
    agents w !! getter_name schema = None ->
    get_agent_reply env asked_agent = inr existing ->
    agent = ExtractionAgent.Build (ExtractionAgent.name existing) schema
              (agent_config schema) ->
    w' = set_agents (<[getter_name schema := agent]> (agents w))
           (set_calls asked_agent w) ->
    agent_obtained agent w'
| agent_created :
    agents w !! getter_name schema = None ->
    get_agent_reply env asked_agent = inl (ApiError 404) ->
    create_agent_reply env asked_creation = inr agent ->
    w' = set_agents (<[getter_name schema := agent]> (agents w))
           (set_calls asked_creation w) ->
    agent_obtained agent w'.

(** How a getter came to raise [e]: the lookup raised something other than
    a 404, or the creation after a 404 raised. *)
Inductive agent_refused (e : Exception) (w' : World) : Prop :=
| lookup_refused :
    agents w !! getter_name schema = None ->
    get_agent_reply env asked_agent = inl e ->
    e <> ApiError 404 ->
    w' = set_calls asked_agent w ->
    agent_refused e w'
| creation_refused :
    agents w !! getter_name schema = None ->
    get_agent_reply env asked_agent = inl (ApiError 404) ->
    create_agent_reply env asked_creation = inl e ->
    w' = set_calls asked_creation w ->
    agent_refused e w'.

Lemma get_extract_agent_for_cases r w' :
  get_extract_agent_for schema env w = (r, w') ->
  match r with
  | Ok agent => agent_obtained agent w'
  | Raise e => agent_refused e w'
  end.
Proof.
  rewrite get_extract_agent_for_eq.
  unfold lru_cache, get_or_create_agent, try_except, bind, get, call.
  destruct (agents w !! getter_name schema) as [cached|] eqn:Hcache.
  { intros E. inversion E; subst. by apply agent_cached. }
  fold asked_agent.
  destruct (get_agent_reply env asked_agent) as [e|existing] eqn:Hlookup.
  - destruct e as [| | | | | |status|];
      try (cbn; intros E; inversion E; subst; by eapply lookup_refused).
    cbn. destruct (Nat.eqb status 404) eqn:S.
    + apply Nat.eqb_eq in S. subst status. unfold call. cbn. fold asked_creation.
      destruct (create_agent_reply env asked_creation) as [e|agent] eqn:Hcreate; cbn;
        intros E; inversion E; subst.
      * by eapply creation_refused.
      * by eapply agent_created.
    + apply Nat.eqb_neq in S. cbn. intros E. inversion E; subst.
      eapply lookup_refused; try done. congruence.
  - cbn. intros E. inversion E; subst. by eapply agent_found.
Qed.
End Getter.

(** X9. A getter of an extraction agent returns an agent in one of three
    ways: from its cache, with no call and no change; from a lookup by the
    name "<deployment>-10k" (or "-10q", "-8k"), the agent found being given
    the getter's schema and configuration under the name the API answered
    with; or, when the lookup answered 404, from a creation under that
    name, schema and configuration. In the last two the agent is cached. *)
Theorem agent_getter_returns env schema w agent w' :
  get_extract_agent_for schema env w = (Ok agent, w') ->
  agent_obtained env schema w agent w'.
Proof. intros E. exact (get_extract_agent_for_cases env schema w _ _ E). Qed.

Definition found_agent : ExtractionAgent.t :=
  ExtractionAgent.Build "sec" Form10K (agent_config Form10K).

Lemma agent_getter_returns_sample :
  agent_obtained sample_env Form10K Sample.empty_world found_agent
    (set_agents {["get_extract_agent_for_10k" := found_agent]}
       (set_calls [extract_api_get_agent "extraction-review-tmp5-classify-sec-10k"]
          Sample.empty_world)).
Proof.
  apply (agent_getter_returns sample_env Form10K Sample.empty_world).
  by vm_compute.
Defined.

(** X10. The cache of a getter: once it has returned an agent, a further
    call returns the same agent without calling the extraction API and
    without changing anything, in the world the first call left and in any
    world that still has the cache entry. *)
Theorem agent_getter_is_cached env schema w agent w' :
  get_extract_agent_for schema env w = (Ok agent, w') ->
  get_extract_agent_for schema env w' = (Ok agent, w') /\
  (forall u, agents u !! getter_name schema = Some agent ->
     get_extract_agent_for schema env u = (Ok agent, u)).
Proof.
  intros E.
  assert (forall u, agents u !! getter_name schema = Some agent ->
            get_extract_agent_for schema env u = (Ok agent, u)) as Hhit.
  { intros u Hu. rewrite get_extract_agent_for_eq. unfold lru_cache, bind, get.
    by rewrite Hu. }
  split; [|exact Hhit]. apply Hhit.
  pose proof (get_extract_agent_for_cases env schema w _ _ E) as H. cbn in H.
  destruct H as [Hc ->|? _ _ _ ->|_ _ _ ->]; [done| |]; cbn; apply lookup_insert_eq.
Qed.

Definition first_lookup : Outcome ExtractionAgent.t * World :=
  get_extract_agent_for Form10K sample_env Sample.empty_world.

Lemma agent_getter_is_cached_sample :
  get_extract_agent_for Form10K sample_env (snd first_lookup)
    = (Ok found_agent, snd first_lookup) /\
  (forall u, agents u !! getter_name Form10K = Some found_agent ->
     get_extract_agent_for Form10K sample_env u = (Ok found_agent, u)).
Proof.
  apply (agent_getter_is_cached sample_env Form10K Sample.empty_world).
  by vm_compute.
Defined.

(** X11. A getter that raises caches nothing and creates an agent only
    after a 404: either the lookup raised something else, and the lookup is
    the only call made, or the lookup answered 404 and the creation raised.
    The cache has no entry for the getter afterwards, so the next call asks
    the extraction API again. *)
Theorem agent_getter_failure_is_not_cached env schema w e w' :
  get_extract_agent_for schema env w = (Raise e, w') ->
  agent_refused env schema w e w' /\ agents w' = agents w /\
  agents w' !! getter_name schema = None.
Proof.
  intros E. pose proof (get_extract_agent_for_cases env schema w _ _ E) as H.
  split; [exact H|]. by destruct H as [Hnone _ _ ->|Hnone _ _ ->].
Qed.

(** An extraction API that is out of service. *)
Definition no_agent_env : Env :=
  mkEnv (gettempdir sample_env) (LLAMA_DEPLOY_DEPLOYMENT_NAME sample_env)
    (sha256_hexdigest sample_env) (str_of_exception sample_env)
    (format_percent sample_env) (random_name sample_env)
    (get_file_reply sample_env) (read_file_content_reply sample_env)
    (stream_reply sample_env)
    (aparse_reply sample_env) (aget_markdown_reply sample_env)
    (aclassify_reply sample_env) (fun _ => inl (ApiError 503))
    (create_agent_reply sample_env) (aextract_reply sample_env)
    (data_fault sample_env) (new_item_id sample_env)
    (open_fault sample_env).

Lemma agent_getter_failure_is_not_cached_sample :
  let w' := set_calls [extract_api_get_agent "extraction-review-tmp5-classify-sec-8k"]
              Sample.empty_world in
  agent_refused no_agent_env Form8K Sample.empty_world (ApiError 503) w' /\
  agents w' = agents Sample.empty_world /\
  agents w' !! getter_name Form8K = None.
Proof.
  cbv zeta.
  apply (agent_getter_failure_is_not_cached no_agent_env Form8K Sample.empty_world).
  by vm_compute.
Defined.

(** ** The recording step, case by case *)

(** X12. A record without a fingerprint ([file_hash] is [None] or the empty
    str) is not deduplicated: the step makes one call, the insertion,
    whatever is stored already. When it returns, the collection is the old
    one with the new item at its end; when the insertion raises, the
    collection is unchanged. *)
Theorem record_without_fingerprint_is_only_inserted env event w r w' :
  truthy_str (ExtractedData.file_hash (event_data event)) = false ->
  record_extracted_data run_context env event w = (r, w') ->
  calls w' = calls w ++ [data_create_item (event_data event)] /\
  match r with
  | Ok stop => store w' = store w ++ [Item.Build (StopEvent.result stop) (event_data event)]
  | Raise e => store w' = store w
  end.
Proof.
  intros Hfalsy. unfold record_extracted_data, try_except, bind, create_item.
  rewrite Hfalsy. cbn. rewrite data_client_eval. cbn.
  destruct (data_fault env _) as [e|]; cbn; intros E; inversion E; by subst.
Qed.

Definition unhashed : ExtractedOrInvalid :=
  ExtractedInvalidEvent
    (ExtractedData.create (Untyped (JObject [])) "f3" "notes.txt" None).

Definition unhashed_recording : Outcome StopEvent.t * World :=
  record_extracted_data run_context sample_env unhashed (snd first_run).

Lemma record_without_fingerprint_is_only_inserted_sample :
  calls (snd unhashed_recording)
    = calls (snd first_run) ++ [data_create_item (event_data unhashed)] /\
  match fst unhashed_recording with
  | Ok stop =>
      store (snd unhashed_recording)
        = store (snd first_run) ++ [Item.Build (StopEvent.result stop) (event_data unhashed)]
  | Raise e => store (snd unhashed_recording) = store (snd first_run)
  end.
Proof.
  apply (record_without_fingerprint_is_only_inserted sample_env unhashed (snd first_run)).
  - reflexivity.
  - unfold unhashed_recording. by destruct (record_extracted_data _ _ _ _).
Defined.







Lemma try_except_report_Raise {A : Type} env what (body : M A) w e w' :
  try_except body (report_and_raise run_context env what) w = (Raise e, w') ->
  exists u, body w = (Raise e, u) /\
            w' = set_stream (stream u ++ [toast error (what +:+ ": " +:+ str_of_exception env e)]) u.
Proof.
  unfold try_except. destruct (body w) as [[a|e0] u]; [discriminate|].
  rewrite report_and_raise_raises. intros E. inversion E; subst. eauto.
Qed.

(** X14. Where a failing attempt of the recording step stops, for a record
    of fingerprint [h]: at the search, nothing being deleted; after the
    deletions, every item found having been asked to be deleted (a deletion
    that raises does not cut the others short) and no insertion being
    attempted; or at the insertion, no item of fingerprint [h] being left. *)
Theorem record_failure_stops_at env event h w e w' :
  ExtractedData.file_hash (event_data event) = Some h ->
  h <> "" ->
  record_extracted_data run_context env event w = (Raise e, w') ->
  (calls w' = calls w ++ [data_untyped_search h] /\ store w' = store w) \/
  (found h w <> [] /\
   calls w' = calls w ++ data_untyped_search h :: map delete_call (found h w)) \/
  (calls w' = calls w ++ recording_calls event h w /\
   List.filter (has_file_hash h) (store w') = []).
Proof.
  intros Hh Hne E. unfold record_extracted_data in E.
  apply try_except_report_Raise in E as (u & E & ->). cbn [calls store set_stream].
  apply bind_Raise in E as [E|([] & w1 & Hw1 & E)]; [discriminate|].
  inversion Hw1; subst w1. clear Hw1.
  apply bind_Raise in E as [E|([] & w2 & Hd & E)].
  - rewrite Hh in E. cbn [default] in E. rewrite (proj2 (truthy_str_Some h) Hne) in E.
    apply bind_Raise in E as [E|(existing & w3 & Hsearch & E)];
      unfold untyped_search in *; rewrite data_client_eval in *; cbn in *;
      destruct (data_fault env _); try discriminate.
    + inversion E; subst. by left.
    + inversion Hsearch; subst. clear Hsearch. fold (found h w) in E.
      destruct (found h w) as [|it rest] eqn:Hfound; [discriminate|].
      right; left. split; [done|].
      apply gather_delete_items in E as (_ & _ & _ & _ & Hc & _). cbn in Hc.
      by rewrite Hc, <- app_assoc.
  - apply (dedup_part env event h Hh Hne) in Hd as (_ & _ & _ & _ & _ & Hc & Hnone).
    cbn in Hc.
    apply bind_Raise in E as [E|(item & w3 & _ & E)]; [|discriminate].
    unfold create_item in E. rewrite data_client_eval in E.
    destruct (data_fault env _); [|discriminate]. inversion E; subst. cbn.
    right; right. split; [|exact Hnone].
    rewrite Hc. unfold recording_calls. by rewrite <- app_assoc.
Qed.

(** A collection that refuses every deletion. *)
Definition delete_fails (history : list Call) : option Exception :=
  match last history with
  | Some (data_delete_item _) => Some (CollaboratorError "delete failed")
  | _ => None
  end.

Definition refused_deletion : Outcome StopEvent.t * World :=
  record_extracted_data run_context (Sample.env Sample.text "10-k" None delete_fails)
    reprocessed (snd first_run).

Lemma record_failure_stops_at_deletions :
  (calls (snd refused_deletion)
     = calls (snd first_run) ++ [data_untyped_search "sha256:ABC"] /\
   store (snd refused_deletion) = store (snd first_run)) \/
  (found "sha256:ABC" (snd first_run) <> [] /\
   calls (snd refused_deletion)
     = calls (snd first_run)
       ++ data_untyped_search "sha256:ABC"
          :: map delete_call (found "sha256:ABC" (snd first_run))) \/
  (calls (snd refused_deletion)
     = calls (snd first_run) ++ recording_calls reprocessed "sha256:ABC" (snd first_run) /\
   List.filter (has_file_hash "sha256:ABC") (store (snd refused_deletion)) = []).
Proof.
  apply (record_failure_stops_at (Sample.env Sample.text "10-k" None delete_fails)
           reprocessed "sha256:ABC" (snd first_run)
           (CollaboratorError "delete failed") (snd refused_deletion)).
  - reflexivity.
  - discriminate.
  - by vm_compute.
Defined.

(** ** Error toasts *)

Definition parse_failed (env : Env) (event : FileDownloadedEvent.t) (e : Exception)
  : UIToast.t :=
  toast error ("Error parsing document " +:+ FileDownloadedEvent.filename event
               +:+ ": " +:+ str_of_exception env e).

Definition record_failed (env : Env) (event : ExtractedOrInvalid) (e : Exception)
  : UIToast.t :=
  toast error ("Error recording extracted data for file "
               +:+ ExtractedData.file_name (event_data event)
               +:+ ": " +:+ str_of_exception env e).

(** The steps that catch and report, each on its event. *)
Inductive Attempt : Type :=
| downloading (event : DownloadFileEvent.t)
| parsing (event : FileDownloadedEvent.t)
| classifying (event : FileParsedEvent.t)
| extracting (event : FileClassifiedEvent.t)
| recording (event : ExtractedOrInvalid).

(** The attempt raised [e] from [w] and left [w']. *)
Definition attempt_raised (env : Env) (a : Attempt) (w : World) (e : Exception)
    (w' : World) : Prop :=
  match a with
  | downloading event => download_file run_context env event w = (Raise e, w')
  | parsing event => parse_document run_context env event w = (Raise e, w')
  | classifying event => classify_document run_context env event w = (Raise e, w')
  | extracting event => extract_data_based_on_type run_context env event w = (Raise e, w')
  | recording event => record_extracted_data run_context env event w = (Raise e, w')
  end.

(** The error toast of the step, with the text of the exception. *)
Definition error_toast (env : Env) (a : Attempt) (e : Exception) : UIToast.t :=
  match a with
  | downloading event => download_failed env event e
  | parsing event => parse_failed env event e
  | classifying event => classify_failed env event e
  | extracting event => extract_failed env event e
  | recording event => record_failed env event e
  end.

(** X15. Every step reports before it raises: when an attempt of the
    download, parsing, classification, extraction or recording step raises
    [e], the last event it wrote to the stream is its error toast, whose
    message ends with the text of [e]; and [e] is raised unchanged. *)
Theorem failing_attempt_ends_with_its_error_toast env a w e w' :
  attempt_raised env a w e w' ->
  last (stream w') = Some (error_toast env a e) /\
  UIToast.level (error_toast env a e) = error.
Proof.
  intros E. split; [|by destruct a].
  destruct a; cbn in E;
    [unfold download_file in E|unfold parse_document in E|unfold classify_document in E
    |unfold extract_data_based_on_type in E|unfold record_extracted_data in E];
    apply try_except_report_Raise in E as (u & _ & ->); cbn; by rewrite last_snoc.
Qed.

Lemma failing_attempt_ends_with_its_error_toast_sample :
  last (stream (snd refused_deletion))
    = Some (error_toast (Sample.env Sample.text "10-k" None delete_fails)
              (recording reprocessed) (CollaboratorError "delete failed")) /\
  UIToast.level (error_toast (Sample.env Sample.text "10-k" None delete_fails)
                   (recording reprocessed) (CollaboratorError "delete failed")) = error.
Proof.
  apply (failing_attempt_ends_with_its_error_toast
           (Sample.env Sample.text "10-k" None delete_fails) (recording reprocessed)
           (snd first_run)).
  by vm_compute.
Defined.

(** ** What a run leaves alone *)

(** There is a file at [path]. *)
Definition present (path : string) (w : World) : Prop := is_Some (fs w !! path).

Lemma Frame_present path : Frame (present path).
Proof. by split. Qed.

Lemma preserves_gather (I : World -> Prop) (tasks : list (M unit)) :
  Forall (preserves I) tasks -> preserves I (gather tasks).
Proof.
  induction 1 as [|task tasks Ht _ IH]; [apply preserves_ret|].
  intros w r w' Hw. simpl. destruct (task w) as [[[]|e] w1] eqn:E.
  - intros G. exact (IH _ _ _ (Ht _ _ _ Hw E) G).
  - destruct (gather tasks w1) as [r2 w2] eqn:G. intros H. inversion H; subst.
    exact (IH _ _ _ (Ht _ _ _ Hw E) G).
Qed.

Section StoreBlind.
Variable I : World -> Prop.
Hypothesis HI : Frame I.
Hypothesis I_store : forall w s, I w -> I (set_store s w).
Variable env : Env.

Lemma preserves_data_client {A : Type} c (effect : World -> A * World) :
  (forall w, I w -> I (snd (effect w))) -> preserves I (data_client env c effect).
Proof.
  intros He w r w' Hw. rewrite data_client_eval.
  destruct (data_fault env _); intros E; inversion E; subst.
  - by apply frame_calls.
  - by apply He, frame_calls.
Qed.

Lemma preserves_record_extracted_data event :
  preserves I (record_extracted_data run_context env event).
Proof.
  unfold record_extracted_data.
  apply preserves_try_except; [|intros; by apply preserves_report].
  apply preserves_bind; [by apply preserves_emit|intros _].
  apply preserves_bind.
  - destruct (truthy_str _); [|apply preserves_ret].
    apply preserves_bind; [by apply preserves_data_client|].
    intros [|it rest]; [apply preserves_ret|].
    apply preserves_gather, Forall_forall. intros task Hin.
    apply list_elem_of_In, in_map_iff in Hin as (item & <- & _).
    apply preserves_data_client. intros u Hu. by apply I_store.
  - intros _. apply preserves_bind; [|intros; apply preserves_ret].
    apply preserves_data_client. intros u Hu. by apply I_store.
Qed.
End StoreBlind.

Lemma download_file_keeps_present env event path :
  preserves (present path) (download_file run_context env event).
Proof.
  pose proof (Frame_present path) as HI.
  unfold download_file.
  apply preserves_try_except; [|intros; by apply preserves_report].
  apply preserves_bind; [preserve_step|intros name].
  apply preserves_bind; [preserve_step|intros url].
  apply preserves_bind; [by apply preserves_emit|intros _].
  apply preserves_bind; [preserve_step|intros response].
  assert (forall content,
             preserves (present path)
               (modify (fun w => set_fs (<[path_join (gettempdir env) name := content]> (fs w)) w)))
    as Hwrite.
  { intros content. apply preserves_modify. intros w Hw. unfold present in *. cbn.
    rewrite lookup_insert. by destruct (decide _). }
  apply preserves_bind; [|intros _].
  { unfold open_wb. destruct (open_fault env _); [apply preserves_raise|apply Hwrite]. }
  apply preserves_bind; [apply Hwrite|intros; destruct (snd response); preserve_step].
Qed.

Lemma classify_document_keeps_present env event path :
  preserves (present path) (classify_document run_context env event).
Proof.
  intros w r w' Hw E. apply classify_document_exits in E.
  unfold present in *. destruct E; cbn; try done.
  rewrite lookup_insert. by destruct (decide _).
Qed.

(** X16. A run never removes a file that was there when it started:
    whatever the collaborators do and however the run ends, every path that
    held a file before still holds one after. The only file a run unlinks
    is a scratch file of its own, created under a name that was not in
    use. *)
Theorem run_never_removes_a_file env start w path r w' :
  is_Some (fs w !! path) ->
  workflow_run run_context env start w = (r, w') ->
  is_Some (fs w' !! path).
Proof.
  intros Hpath E.
  assert (preserves (present path) (workflow_run run_context env start)) as H.
  { pose proof (Frame_present path) as HI.
    unfold workflow_run, through_extract, through_classify, through_download.
    repeat first
      [ apply preserves_bind; [|intros ?]
      | apply preserves_with_retry; [by apply frame_slept|]
      | apply preserves_ret
      | apply download_file_keeps_present
      | by apply preserves_parse_document
      | apply classify_document_keeps_present
      | by apply preserves_extract_data_based_on_type
      | by apply preserves_record_extracted_data ]. }
  exact (H _ _ _ Hpath E).
Qed.

Lemma run_never_removes_a_file_sample :
  is_Some (fs (snd second_run) !! "/tmp/report.pdf").
Proof.
  apply (run_never_removes_a_file sample_env (FileEvent.Build "f2") (snd first_run)
           "/tmp/report.pdf" (fst second_run) (snd second_run)).
  - eexists. vm_compute. reflexivity.
  - unfold second_run, sample_env. by destruct (workflow_run _ _ _ _).
Defined.

(** X17. Nothing reaches the collection before the recording step: however
    the steps up to the extraction end, the collection is the one the run
    started with. A run that fails in one of them stores nothing and
    deletes nothing. *)
Theorem collection_untouched_before_recording env start w r w' :
  through_extract run_context env start w = (r, w') ->
  store w' = store w.
Proof.
  intros E.
  assert (preserves (store_is (store w)) (through_extract run_context env start)) as H.
  { pose proof (Frame_store_is (store w)) as HI.
    unfold through_extract, through_classify, through_download.
    repeat first
      [ apply preserves_bind; [|intros ?]
      | apply preserves_with_retry; [by apply frame_slept|]
      | apply preserves_ret
      | apply download_file_keeps_store
      | by apply preserves_parse_document
      | apply classify_document_keeps_store
      | by apply preserves_extract_data_based_on_type ]. }
  exact (H _ _ _ eq_refl E).
Qed.

Lemma collection_untouched_before_recording_sample :
  store (snd (through_extract run_context surrogate_env (FileEvent.Build "f9")
                (snd first_run)))
  = store (snd first_run).
Proof.
  apply (collection_untouched_before_recording surrogate_env (FileEvent.Build "f9")
           (snd first_run)
           (fst (through_extract run_context surrogate_env (FileEvent.Build "f9")
                   (snd first_run)))).
  by destruct (through_extract _ _ _ _).
Defined.

(** ** Validation against the schemas ([schemas.py]) *)

(** What a field declared [Optional[str] = Field(None)] reads from the
    object: the str under its key, or [None] when the key is missing or
    holds [None]. *)
Definition field_reads (fields : list (string * json)) (key : string)
    (value : option string) : Prop :=
  match value with
  | Some s => dict_get key fields = Some (JString s)
  | None => dict_get key fields = None \/ dict_get key fields = Some JNull
  end.

Lemma optional_str_reads model key fields value :
  optional_str model key fields = inr value <-> field_reads fields key value.
Proof.
  unfold optional_str, field_reads.
  destruct (dict_get key fields) as [[| | | | |]|]; destruct value; split;
    intros H; try discriminate; try (inversion H; by subst); try done; auto;
    destruct H; discriminate.
Qed.

(** X18. Validation of an extraction answer against [Form10KData] and
    [Form10QData]: the answer is accepted exactly when it is an object in
    which each of the four declared keys is missing, [None] or a str, and
    the record then holds, field by field, that str or [None]. Other keys
    are not looked at; a number, a list or an object under a declared key,
    or an answer that is not an object, is rejected. *)
Theorem financial_forms_validate_field_by_field raw :
  (forall x, Form10KData.model_validate raw = inr x <->
     exists fields, raw = JObject fields /\
       field_reads fields "total_revenue" (Form10KData.total_revenue x) /\
       field_reads fields "net_income" (Form10KData.net_income x) /\
       field_reads fields "total_assets" (Form10KData.total_assets x) /\
       field_reads fields "total_liabilities" (Form10KData.total_liabilities x)) /\
  (forall x, Form10QData.model_validate raw = inr x <->
     exists fields, raw = JObject fields /\
       field_reads fields "quarterly_revenue" (Form10QData.quarterly_revenue x) /\
       field_reads fields "quarterly_net_income" (Form10QData.quarterly_net_income x) /\
       field_reads fields "total_assets" (Form10QData.total_assets x) /\
       field_reads fields "total_liabilities" (Form10QData.total_liabilities x)).
Proof.
  split; intros [a b c d]; split.
  - destruct raw as [| | | | |fields]; try discriminate. cbn.
    destruct (optional_str _ "total_revenue" fields) as [|a'] eqn:Ha; [discriminate|].
    destruct (optional_str _ "net_income" fields) as [|b'] eqn:Hb; [discriminate|].
    destruct (optional_str _ "total_assets" fields) as [|c'] eqn:Hc; [discriminate|].
    destruct (optional_str _ "total_liabilities" fields) as [|d'] eqn:Hd; [discriminate|].
    intros H. inversion H; subst. exists fields. cbn.
    rewrite <- !(optional_str_reads "Form10KData"). by repeat split.
  - intros (fields & -> & Ha & Hb & Hc & Hd). cbn in *.
    apply (optional_str_reads "Form10KData") in Ha, Hb, Hc, Hd.
    by rewrite Ha, Hb, Hc, Hd.
  - destruct raw as [| | | | |fields]; try discriminate. cbn.
    destruct (optional_str _ "quarterly_revenue" fields) as [|a'] eqn:Ha; [discriminate|].
    destruct (optional_str _ "quarterly_net_income" fields) as [|b'] eqn:Hb; [discriminate|].
    destruct (optional_str _ "total_assets" fields) as [|c'] eqn:Hc; [discriminate|].
    destruct (optional_str _ "total_liabilities" fields) as [|d'] eqn:Hd; [discriminate|].
    intros H. inversion H; subst. exists fields. cbn.
    rewrite <- !(optional_str_reads "Form10QData"). by repeat split.
  - intros (fields & -> & Ha & Hb & Hc & Hd). cbn in *.
    apply (optional_str_reads "Form10QData") in Ha, Hb, Hc, Hd.
    by rewrite Ha, Hb, Hc, Hd.
Qed.

Lemma event_8k_validates item e :
  Event8K.model_validate item = inr e <->
  exists fields, item = JObject fields /\
    field_reads fields "category" (Event8K.category e) /\
    field_reads fields "description" (Event8K.description e).
Proof.
  destruct e as [a b]. split.
  - destruct item as [| | | | |fields]; try discriminate. cbn.
    destruct (optional_str _ "category" fields) as [|a'] eqn:Ha; [discriminate|].
    destruct (optional_str _ "description" fields) as [|b'] eqn:Hb; [discriminate|].
    intros H. inversion H; subst. exists fields. cbn.
    rewrite <- !(optional_str_reads "Event8K"). by repeat split.
  - intros (fields & -> & Ha & Hb). cbn in *.
    apply (optional_str_reads "Event8K") in Ha, Hb. by rewrite Ha, Hb.
Qed.

Lemma validate_events_each items es :
  Form8KData.validate_events items = inr es <->
  Forall2 (fun item e => Event8K.model_validate item = inr e) items es.
Proof.
  revert es. induction items as [|item items IH]; intros es; simpl.
  - split.
    + intros H. inversion H. constructor.
    + intros H. by inversion H.
  - destruct (Event8K.model_validate item) as [err|e] eqn:He.
    + split; [discriminate|]. intros H. inversion H; subst. congruence.
    + destruct (Form8KData.validate_events items) as [err|es'] eqn:Hes.
      * split; [discriminate|]. intros H. inversion H; subst.
        match goal with
        | H : Forall2 _ items _ |- _ => apply IH in H; discriminate
        end.
      * split.
        -- intros H. inversion H; subst. constructor; [done|]. by apply IH.
        -- intros H. inversion H; subst.
           match goal with
           | H : Forall2 _ items _ |- _ => apply IH in H; inversion H; subst
           end.
           congruence.
Qed.

(** X19. Validation of an extraction answer against [Form8KData]: the
    answer is accepted exactly when it is an object whose "events" key is
    missing or [None] (the record then has no list of events) or holds a
    list of which every item validates as an [Event8K] (an object with
    "category" and "description" missing, [None] or a str); the record then
    holds the validated events, as many as the items and in their order.
    One item that does not validate rejects the whole answer, and an empty
    list stays the empty list and does not become [None]. *)
Theorem form_8k_validates_every_event raw x :
  Form8KData.model_validate raw = inr x <->
  exists fields, raw = JObject fields /\
    match Form8KData.events x with
    | None => dict_get "events" fields = None \/ dict_get "events" fields = Some JNull
    | Some es =>
        exists items,
          dict_get "events" fields = Some (JArray items) /\
          length es = length items /\
          Forall2
            (fun item e =>
               exists object, item = JObject object /\
                 field_reads object "category" (Event8K.category e) /\
                 field_reads object "description" (Event8K.description e))
            items es
    end.
Proof.
  assert (forall items es,
            Forall2 (fun item e => Event8K.model_validate item = inr e) items es <->
            Forall2 (fun item e =>
                       exists object, item = JObject object /\
                         field_reads object "category" (Event8K.category e) /\
                         field_reads object "description" (Event8K.description e))
              items es) as Hevents.
  { intros items es. split; intros H; induction H; constructor; try done;
      by apply event_8k_validates. }
  destruct x as [events]. split.
  - destruct raw as [| | | | |fields]; try discriminate. cbn.
    destruct (dict_get "events" fields) as [[| | | |items|]|] eqn:Hget; try discriminate.
    + intros H. inversion H; subst. exists fields. cbn. auto.
    + destruct (Form8KData.validate_events items) as [|es] eqn:Hes; [discriminate|].
      intros H. inversion H; subst. exists fields. split; [done|]. cbn.
      exists items. split; [done|].
      apply validate_events_each in Hes. split.
      * symmetry. by eapply Forall2_length.
      * by apply Hevents.
    + intros H. inversion H; subst. exists fields. cbn. auto.
  - intros (fields & -> & H). cbn in *. destruct events as [es|].
    + destruct H as (items & -> & _ & H). apply Hevents, validate_events_each in H.
      by rewrite H.
    + by destruct H as [->| ->].
Qed.

(** ** An emitter that raises *)

Lemma emission_raises_not_Ok ctx e t w w' :
  emission_raises ctx e -> write_event_to_stream ctx t w = (Ok tt, w') -> False.
Proof. intros Hraises E. specialize (Hraises t w). rewrite E in Hraises. discriminate. Qed.

Lemma step_emission_raises {A : Type} ctx env what (body : M A) e w :
  emission_raises ctx e ->
  (forall a w', body w = (Ok a, w') -> False) ->
  fst (try_except body (report_and_raise ctx env what) w) = Raise e.
Proof.
  intros Hraises Hbody. unfold try_except.
  destruct (body w) as [[a|e0] w1] eqn:E.
  - destruct (Hbody _ _ eq_refl).
  - by apply report_and_raise_emission_raises.
Qed.

(** X21. An emission that raises replaces whatever a step was doing: each
    of the five steps that report progress emits inside its [try] before it
    can return, and its [except] block emits again before it re-raises, so
    with an emitter that raises [e] every attempt of every such step ends
    with [e], also when the error the step was handling was another one. *)
Theorem emission_failure_ends_every_step ctx env e :
  emission_raises ctx e ->
  (forall event w, fst (download_file ctx env event w) = Raise e) /\
  (forall event w, fst (parse_document ctx env event w) = Raise e) /\
  (forall event w, fst (classify_document ctx env event w) = Raise e) /\
  (forall event w, fst (extract_data_based_on_type ctx env event w) = Raise e) /\
  (forall event w, fst (record_extracted_data ctx env event w) = Raise e).
Proof.
  intros Hraises. repeat split; intros event w.
  - by apply download_file_emission_raises.
  - apply step_emission_raises; [done|]. intros a w' E.
    apply bind_Ok in E as ([] & u & Hemit & _).
    by eapply emission_raises_not_Ok.
  - apply step_emission_raises; [done|]. intros a w' E.
    apply bind_Ok in E as ([] & u & Hemit & _).
    by eapply emission_raises_not_Ok.
  - apply step_emission_raises; [done|]. intros a w' E.
    apply bind_Ok in E as (content & u1 & _ & E).
    apply bind_Ok in E as ([] & u2 & Hemit & _).
    by eapply emission_raises_not_Ok.
  - apply step_emission_raises; [done|]. intros a w' E.
    apply bind_Ok in E as ([] & u & Hemit & _).
    by eapply emission_raises_not_Ok.
Qed.

(** The extraction step has no file to read and the emitter is out of
    order: the step ends with the error of the emitter, not with
    [FileNotFoundError]. *)
Lemma emission_failure_ends_every_step_sample :
  emission_raises failing_context (CollaboratorError "stream closed") /\
  fst (extract_data_based_on_type failing_context sample_env annual_event
         Sample.empty_world)
    = Raise (CollaboratorError "stream closed").
Proof.
  assert (emission_raises failing_context (CollaboratorError "stream closed"))
    as Hraises by (by intros t w).
  split; [exact Hraises|].
  apply (emission_failure_ends_every_step failing_context sample_env
           (CollaboratorError "stream closed") Hraises).
Defined.
